(** * Motion detector core (src/detector.py): ROI store, persistence,
      temporal smoothing, rain gate and frame pipeline.

    The development follows [MotionDetector] method by method.  OpenCV and
    NumPy are outside the repository: the computer-vision primitives are an
    interface ([Vision]) and every general theorem holds for all of its
    implementations; NumPy's basic slicing, which the ROI crop relies on, is
    written out ([py_slice]). *)

From Stdlib Require Import ZArith QArith List Bool String Lia.
From stdpp Require Import base gmap strings list.

Open Scope Z_scope.

Set Warnings "-ambiguous-paths".

(** ** Data model *)

(** Clock readings ([time.time()]) and contour areas are floats in the
    source.  No threshold decision depends on rounding: areas of integer
    polygons are multiples of one half.  Both are carried as rationals. *)
Definition timestamp := Q.

(** [DetectorConfig.__init__]: the fields read by the detector core. *)
Record DetectorConfig := {
  motion_threshold : Z;
  min_contour_area : Z;
  max_small_contours : Z;
  motion_smoothing_frames : Z;
  bg_history : Z;
  bg_var_threshold : Z;
  bg_detect_shadows : bool;
  max_rois : Z;
  roi_config_file : string
}.

Definition default_config : DetectorConfig := {|
  motion_threshold := 800;
  min_contour_area := 1500;
  max_small_contours := 50;
  motion_smoothing_frames := 3;
  bg_history := 300;
  bg_var_threshold := 100;
  bg_detect_shadows := true;
  max_rois := 4;
  roi_config_file := "config/rois.json"
|}.

(** The ROI dictionary built by [add_roi]:
    [{'id', 'coords': [x1, y1, x2, y2], 'motion_detected', 'last_motion_time'}]. *)
Record roi := {
  roi_id : Z;
  coords : Z * Z * Z * Z;
  motion_detected : bool;
  last_motion_time : option timestamp
}.

(** A foreground mask: rows of 8-bit pixels, indexed [mask[y][x]]. *)
Definition mask := list (list Z).

(** A contour: its polygon vertices [(x, y)]. *)
Definition contour := list (Z * Z).

(** The OpenCV calls of [detect_motion_in_rois].  [foreground] stands for
    lines 229-239 (grayscale conversion, Gaussian blur, the MOG2
    subtractor's [apply], morphological close and open) and threads the
    subtractor's model. *)
Class Vision := {
  frame : Type;
  subtractor : Type;
  foreground : subtractor -> frame -> subtractor * mask;
  findContours : mask -> list contour;
  contourArea : contour -> Q
}.

(** ** Python helpers *)

(** A slice bound [i] resolved against a sequence of length [n], as Python
    and NumPy do for step 1: negative bounds count from the end, and both
    ends are clamped to [0, n]. *)
Definition slice_index (n i : Z) : Z :=
  if i <? 0 then Z.max 0 (i + n) else Z.min i n.

(** [l[start:stop]]. *)
Definition py_slice {A} (l : list A) (start stop : Z) : list A :=
  let n := Z.of_nat (length l) in
  let s := slice_index n start in
  let e := slice_index n stop in
  take (Z.to_nat (e - s)) (drop (Z.to_nat s) l).

(** [fg_mask[y1:y2, x1:x2]]. *)
Definition crop (m : mask) (y1 y2 x1 x2 : Z) : mask :=
  map (fun row => py_slice row x1 x2) (py_slice m y1 y2).

(** [max(ids, default=0)]. *)
Definition py_max_default0 (ids : list Z) : Z :=
  match ids with
  | [] => 0
  | x :: rest => fold_left Z.max rest x
  end.

(** [sum(history)] over booleans: the number of [True] entries. *)
Definition py_sum_bool (h : list bool) : Z :=
  Z.of_nat (length (filter (fun b => Is_true b) h)).

(** [sum(areas)]: left to right from 0. *)
Definition py_sum (areas : list Q) : Q := fold_left Qplus areas 0%Q.

(** [a < b] and [a > b] between a float and a configured integer. *)
Definition area_lt (a : Q) (k : Z) : bool := negb (Qle_bool (inject_Z k) a).
Definition area_ge (a : Q) (k : Z) : bool := Qle_bool (inject_Z k) a.
Definition area_gt (a : Q) (k : Z) : bool := negb (Qle_bool a (inject_Z k)).

(** ** The file system seen by [save_rois] and [load_rois] *)

(** JSON values, as [json.load] returns them. *)
#[warnings="-register-all"]
Inductive json :=
  | JNull
  | JBool (b : bool)
  | JNumber (q : Q)
  | JString (s : string)
  | JArray (items : list json)
  | JObject (members : list (string * json)).

(** A JSON value that is not an array: what [self.rois] holds after
    [load_rois] read such a file. *)
Inductive non_array :=
  | NNull
  | NBool (b : bool)
  | NNumber (q : Q)
  | NString (s : string)
  | NObject (members : list (string * json)).

(** [len(v)]: [None] stands for the [TypeError] of a value without
    length.  A string counts its characters; an object is the dictionary
    that [json.load] built, one member per key. *)
Definition py_len (v : non_array) : option Z :=
  match v with
  | NNull | NBool _ | NNumber _ => None
  | NString s => Some (Z.of_nat (String.length s))
  | NObject members => Some (Z.of_nat (length members))
  end.

(** What a file holds: text that [json.load] rejects, a JSON array of ROI
    records, or a JSON value that is not an array.  (Arrays with other
    elements are outside this model: ROI records are typed.) *)
Inductive content :=
  | Garbage
  | Doc (records : list roi)
  | Value (j : non_array).

Inductive node :=
  | Directory
  | Protected            (* exists, but cannot be opened *)
  | File (c : content).

(** [nodes]: what exists, by path; the current directory and the root
    always exist and have no entry.  [read_only]: paths whose parent
    directory may not be created (permissions).  [short_write]: paths on
    which the write fails after the file was opened (and so truncated). *)
Record filesystem := {
  nodes : gmap string node;
  read_only : gset string;
  short_write : gset string
}.

Definition set_node (p : string) (n : node) (d : filesystem) : filesystem :=
  {| nodes := <[p := n]> (nodes d);
     read_only := read_only d;
     short_write := short_write d |}.

Inductive exn :=
  | FileNotFoundError
  | FileExistsError
  | NotADirectoryError
  | PermissionError
  | IsADirectoryError
  | OSError
  | JSONDecodeError
  | TypeError
  | AttributeError.

(** ** Paths, as [pathlib] reads them *)

(** The character [/]. *)
Definition slash : Ascii.ascii := Ascii.ascii_of_nat 47.

(** The pieces of a string between its slashes. *)
Fixpoint split_slash (s : string) : list string :=
  match s with
  | EmptyString => [EmptyString]
  | String c rest =>
      if Ascii.eqb c slash then EmptyString :: split_slash rest
      else match split_slash rest with
           | [] => [String c EmptyString]
           | piece :: pieces => String c piece :: pieces
           end
  end.

(** [Path(s).parts] without the root: empty pieces and [.] are dropped. *)
Definition parts (s : string) : list string :=
  filter (fun x => x <> EmptyString /\ x <> "."%string) (split_slash s).

Definition absolute (s : string) : bool :=
  match s with
  | String c _ => Ascii.eqb c slash
  | EmptyString => false
  end.

(** [str] of the path with the given parts. *)
Definition render (abs : bool) (l : list string) : string :=
  String.append (if abs then "/" else "") (String.concat "/" l).

(** The non-empty prefixes of a list, shortest first. *)
Fixpoint prefixes {A} (l : list A) : list (list A) :=
  match l with
  | [] => []
  | x :: rest => [x] :: map (cons x) (prefixes rest)
  end.

(** The directories above [s], outermost first, the current directory and
    the root left out: [Path(s).parent] comes last. *)
Definition parent_dirs (s : string) : list string :=
  map (render (absolute s)) (prefixes (removelast (parts s))).

(** The disk after [mkdir(parents=True, exist_ok=True)] along a chain of
    directories, and the exception that stopped it, if any. *)
Fixpoint dirs_made (qs : list string) (d : filesystem)
    : filesystem * option exn :=
  match qs with
  | [] => (d, None)
  | q :: rest =>
      match nodes d !! q with
      | None => dirs_made rest (set_node q Directory d)
      | Some Directory => dirs_made rest d
      | Some _ =>
          (d, Some (match rest with
                    | [] => FileExistsError
                    | _ => NotADirectoryError
                    end))
      end
  end.

(** The characters of a list of pieces, one more per piece. *)
Definition weight (l : list string) : nat :=
  foldr (fun x n => S (String.length x + n)) 0%nat l.

Inductive outcome (A : Type) :=
  | Returns (a : A)
  | Raises (e : exn).
Arguments Returns {A} a.
Arguments Raises {A} e.

Section Detector.
Context {V : Vision}.

(** [MotionDetector] instance attributes. *)
Record MotionDetector := {
  config : DetectorConfig;
  background_subtractor : subtractor;
  rois : list roi;
  motion_history : gmap Z (list bool);
  rain_detection_active : bool;
  last_notification_time : timestamp
}.

Definition set_rois (l : list roi) (self : MotionDetector) : MotionDetector :=
  {| config := config self;
     background_subtractor := background_subtractor self;
     rois := l;
     motion_history := motion_history self;
     rain_detection_active := rain_detection_active self;
     last_notification_time := last_notification_time self |}.

Definition set_motion_history (h : gmap Z (list bool)) (self : MotionDetector)
  : MotionDetector :=
  {| config := config self;
     background_subtractor := background_subtractor self;
     rois := rois self;
     motion_history := h;
     rain_detection_active := rain_detection_active self;
     last_notification_time := last_notification_time self |}.

(** The detector together with the disk it saves to. *)
Record world := {
  det : MotionDetector;
  disk : filesystem
}.

(** The attribute [self.rois] is a list of ROI records until [load_rois]
    reads a file whose JSON value is not an array; from then on it is that
    value: [other_rois] holds it, and the list of the detector is empty and
    no longer read.  A world is the state in which [self.rois] is a list. *)
Record state := {
  world_of : world;
  other_rois : option non_array
}.

Definition typed (w : world) : state :=
  {| world_of := w; other_rois := None |}.

Coercion typed : world >-> state.
Coercion world_of : state >-> world.

(** Python code that may raise: state changes made before the exception
    stay. *)
Definition py (A : Type) : Type := state -> outcome A * state.

Definition ret_py {A} (a : A) : py A := fun w => (Returns a, w).
Definition raise {A} (e : exn) : py A := fun w => (Raises e, w).
Definition bind_py {A B} (m : py A) (k : A -> py B) : py B :=
  fun w => match m w with
           | (Returns a, w') => k a w'
           | (Raises e, w') => (Raises e, w')
           end.
(** [try: body  except Exception as e: handler]. *)
Definition try_except {A} (body : py A) (handler : exn -> py A) : py A :=
  fun w => match body w with
           | (Returns a, w') => (Returns a, w')
           | (Raises e, w') => handler e w'
           end.

Definition get_self : py MotionDetector := fun w => (Returns (det w), w).
Definition put_self (s : MotionDetector) : py unit :=
  fun w => (Returns tt,
            {| world_of := {| det := s; disk := disk w |};
               other_rois := other_rois w |}).
Definition get_disk : py filesystem := fun w => (Returns (disk w), w).
Definition put_disk (d : filesystem) : py unit :=
  fun w => (Returns tt,
            {| world_of := {| det := det w; disk := d |};
               other_rois := other_rois w |}).
Definition get_other : py (option non_array) :=
  fun w => (Returns (other_rois w), w).
Definition put_other (v : option non_array) : py unit :=
  fun w => (Returns tt, {| world_of := world_of w; other_rois := v |}).

#[local] Instance py_ret : MRet py := fun A a => ret_py a.
#[local] Instance py_bind : MBind py := fun A B k m => bind_py m k.

(** ** ROI store *)

(** [add_roi], the [try] block (lines 146-162), when [self.rois] is not
    a list: [len] raises on a value without length; the characters of a
    string and the keys of an object cannot be indexed by ['id']; an empty
    string or object has no [append]. *)
Definition add_roi_other (v : non_array) : py bool :=
  self ← get_self;
  match py_len v with
  | None => raise TypeError
  | Some n =>
      if n >=? max_rois (config self) then mret false
      else if n =? 0 then raise AttributeError
      else raise TypeError
  end.

(** [add_roi], the [try] block (lines 146-162). *)
Definition add_roi_body (x1 y1 x2 y2 : Z) : py bool :=
  other ← get_other;
  match other with
  | Some v => add_roi_other v
  | None =>
      self ← get_self;
      if Z.of_nat (length (rois self)) >=? max_rois (config self) then
        mret false
      else
        let new_id := py_max_default0 (map roi_id (rois self)) + 1 in
        let r := {| roi_id := new_id;
                    coords := (x1, y1, x2, y2);
                    motion_detected := false;
                    last_motion_time := None |} in
        put_self (set_rois (rois self ++ [r]) self);;
        mret true
  end.

Definition add_roi (x1 y1 x2 y2 : Z) : py bool :=
  try_except (add_roi_body x1 y1 x2 y2) (fun _ => mret false).

(** The [for i, roi in enumerate(self.rois)] scan of [delete_roi]: the
    list without its first entry whose id is [i], if there is one. *)
Fixpoint remove_first (i : Z) (l : list roi) : option (list roi) :=
  match l with
  | [] => None
  | r :: rest =>
      if roi_id r =? i then Some rest
      else match remove_first i rest with
           | Some rest' => Some (r :: rest')
           | None => None
           end
  end.

(** [delete_roi], the [try] block (lines 171-178): [enumerate] raises on
    a value that cannot be iterated, ['id'] cannot index the characters of
    a string or the keys of an object, and nothing is visited in an empty
    one. *)
Definition delete_roi_body (i : Z) : py bool :=
  other ← get_other;
  match other with
  | Some v =>
      match py_len v with
      | None => raise TypeError
      | Some n => if n =? 0 then mret false else raise TypeError
      end
  | None =>
      self ← get_self;
      match remove_first i (rois self) with
      | Some l =>
          put_self (set_motion_history (delete i (motion_history self))
                      (set_rois l self));;
          mret true
      | None => mret false
      end
  end.

Definition delete_roi (i : Z) : py bool :=
  try_except (delete_roi_body i) (fun _ => mret false).

(** [clear_rois] (lines 183-187), outside any [try]: of the values that
    are not lists only an object has [clear]. *)
Definition clear_rois : py unit :=
  other ← get_other;
  match other with
  | Some (NObject _) =>
      put_other (Some (NObject []));;
      self ← get_self;
      put_self (set_motion_history ∅ self)
  | Some _ => raise AttributeError
  | None =>
      self ← get_self;
      put_self (set_motion_history ∅ (set_rois [] self))
  end.

(** ** Persistence *)

(** [filename or self.config.roi_config_file]: [None] and the empty string
    are falsy. *)
Definition resolve (filename : option string) (self : MotionDetector) : string :=
  match filename with
  | Some f => if decide (f = ""%string) then roi_config_file (config self) else f
  | None => roi_config_file (config self)
  end.

(** [mkdir(parents=True, exist_ok=True)] along a chain of directories,
    outermost first: a missing one is created, an existing one is left,
    and anything else in its place makes the call raise. *)
Fixpoint make_dirs (qs : list string) : py unit :=
  match qs with
  | [] => mret tt
  | q :: rest =>
      d ← get_disk;
      match nodes d !! q with
      | None => put_disk (set_node q Directory d);; make_dirs rest
      | Some Directory => make_dirs rest
      | Some _ =>
          raise (match rest with
                 | [] => FileExistsError
                 | _ => NotADirectoryError
                 end)
      end
  end.

(** [Path(filename).parent.mkdir(parents=True, exist_ok=True)]. *)
Definition mkdir_parent (p : string) : py unit :=
  d ← get_disk;
  if decide (p ∈ read_only d) then raise PermissionError
  else make_dirs (parent_dirs p).

(** [open(filename, 'w')]: creates or truncates the file. *)
Definition open_w (p : string) : py unit :=
  d ← get_disk;
  match nodes d !! p with
  | Some Directory => raise IsADirectoryError
  | Some Protected => raise PermissionError
  | _ => put_disk (set_node p (File Garbage) d)
  end.

(** [json.dump(self.rois, f, indent=2)] and the close of the [with]. *)
Definition json_dump (c : content) (p : string) : py unit :=
  d ← get_disk;
  if decide (p ∈ short_write d) then raise OSError
  else put_disk (set_node p (File c) d).

(** The JSON document of [self.rois]. *)
Definition rois_document : py content :=
  other ← get_other;
  match other with
  | Some v => mret (Value v)
  | None => self ← get_self; mret (Doc (rois self))
  end.

(** [Path(filename).exists()]. *)
Definition path_exists (p : string) : py bool :=
  d ← get_disk;
  mret (bool_decide (is_Some (nodes d !! p))).

(** [open(filename, 'r')]. *)
Definition open_r (p : string) : py content :=
  d ← get_disk;
  match nodes d !! p with
  | None => raise FileNotFoundError
  | Some Directory => raise IsADirectoryError
  | Some Protected => raise PermissionError
  | Some (File c) => mret c
  end.

(** [self.rois = json.load(f)] (line 215). *)
Definition json_load_rois (c : content) : py unit :=
  match c with
  | Garbage => raise JSONDecodeError
  | Doc l =>
      self ← get_self;
      put_self (set_rois l self);;
      put_other None
  | Value v =>
      self ← get_self;
      put_self (set_rois [] self);;
      put_other (Some v)
  end.

(** [len(self.rois)] in the log line (line 217). *)
Definition len_rois : py Z :=
  other ← get_other;
  match other with
  | Some v =>
      match py_len v with
      | None => raise TypeError
      | Some n => mret n
      end
  | None => self ← get_self; mret (Z.of_nat (length (rois self)))
  end.

(** [save_rois], the [try] block (lines 192-199). *)
Definition save_rois_body (filename : option string) : py bool :=
  self ← get_self;
  let p := resolve filename self in
  mkdir_parent p;;
  open_w p;;
  document ← rois_document;
  json_dump document p;;
  mret true.

Definition save_rois (filename : option string) : py bool :=
  try_except (save_rois_body filename) (fun _ => mret false).

(** [load_rois], the [try] block (lines 208-218): the list is replaced at
    line 215, before the log line at 217 takes its length. *)
Definition load_rois_body (filename : option string) : py bool :=
  self ← get_self;
  let p := resolve filename self in
  found ← path_exists p;
  if negb found then mret false
  else
    c ← open_r p;
    json_load_rois c;;
    len_rois;;
    mret true.

Definition load_rois (filename : option string) : py bool :=
  try_except (load_rois_body filename) (fun _ => mret false).

(** ** Frame pipeline *)

(** The [results] dictionary of [process_frame]. *)
Record FrameResult := {
  result_motion_detected : bool;
  rain_active : bool;
  active_rois : Z
}.

(** Lines 242-246: contours of the whole mask below [min_contour_area],
    and the rain decision. *)
Definition small_contours (cfg : DetectorConfig) (fg_mask : mask) : list contour :=
  filter (fun c => Is_true (area_lt (contourArea c) (min_contour_area cfg)))
         (findContours fg_mask).

Definition rain_pattern (cfg : DetectorConfig) (fg_mask : mask) : bool :=
  max_small_contours cfg <? Z.of_nat (length (small_contours cfg fg_mask)).

(** Lines 260-265: contours of the cropped mask of at least
    [min_contour_area], and their summed area. *)
Definition large_contours (cfg : DetectorConfig) (roi_mask : mask) : list contour :=
  filter (fun c => Is_true (area_ge (contourArea c) (min_contour_area cfg)))
         (findContours roi_mask).

Definition total_area (cfg : DetectorConfig) (roi_mask : mask) : Q :=
  py_sum (map contourArea (large_contours cfg roi_mask)).

Definition roi_mask_of (fg_mask : mask) (r : roi) : mask :=
  let '(x1, y1, x2, y2) := coords r in crop fg_mask y1 y2 x1 x2.

(** The raw decision appended at line 268. *)
Definition raw_motion (cfg : DetectorConfig) (fg_mask : mask) (r : roi) : bool :=
  area_gt (total_area cfg (roi_mask_of fg_mask r)) (motion_threshold cfg).

(** Lines 268-270: append, then drop the oldest entry when the window
    grew past [motion_smoothing_frames]. *)
Definition update_history (n : Z) (hist : list bool) (raw : bool) : list bool :=
  let h := hist ++ [raw] in
  if n <? Z.of_nat (length h) then tail h else h.

(** Lines 273-276. *)
Definition consistent_motion (n : Z) (hist : list bool) : bool :=
  (n <=? Z.of_nat (length hist)) && (2 <=? py_sum_bool hist).

(** The window of ROI [r] after this frame's update (a missing key starts
    from the empty list, lines 256-257). *)
Definition roi_window (cfg : DetectorConfig) (fg_mask : mask)
    (history : gmap Z (list bool)) (r : roi) : list bool :=
  update_history (motion_smoothing_frames cfg)
                 (default [] (history !! roi_id r))
                 (raw_motion cfg fg_mask r).

(** One iteration of the [for roi in self.rois] loop (lines 252-288). *)
Definition roi_step (cfg : DetectorConfig) (fg_mask : mask) (rain : bool)
    (now : timestamp) (history : gmap Z (list bool)) (r : roi)
    : gmap Z (list bool) * roi :=
  let window := roi_window cfg fg_mask history r in
  let detected :=
    consistent_motion (motion_smoothing_frames cfg) window && negb rain in
  (<[roi_id r := window]> history,
   {| roi_id := roi_id r;
      coords := coords r;
      motion_detected := detected;
      last_motion_time := if detected then Some now else last_motion_time r |}).

(** The loop; [clock i] is what [time.time()] reads while the [i]-th ROI
    is handled.  The last component is [motion_detected_any]. *)
Fixpoint roi_loop (cfg : DetectorConfig) (fg_mask : mask) (rain : bool)
    (clock : nat -> timestamp) (i : nat) (history : gmap Z (list bool))
    (l : list roi) : gmap Z (list bool) * list roi * bool :=
  match l with
  | [] => (history, [], false)
  | r :: rest =>
      let '(history1, r') := roi_step cfg fg_mask rain (clock i) history r in
      let '(history2, rest', any) :=
        roi_loop cfg fg_mask rain clock (S i) history1 rest in
      (history2, r' :: rest', motion_detected r' || any)
  end.

Definition detect_motion_in_rois (fr : frame) (clock : nat -> timestamp)
    (self : MotionDetector) : bool * MotionDetector :=
  match rois self with
  | [] => (false, self)
  | _ =>
      let '(model, fg_mask) := foreground (background_subtractor self) fr in
      let rain := rain_pattern (config self) fg_mask in
      let '(history, l, any) :=
        roi_loop (config self) fg_mask rain clock 0 (motion_history self)
                 (rois self) in
      (any,
       {| config := config self;
          background_subtractor := model;
          rois := l;
          motion_history := history;
          rain_detection_active := rain;
          last_notification_time := last_notification_time self |})
  end.

(** [len([roi for roi in self.rois if roi.get('motion_detected', False)])]. *)
Definition count_active (l : list roi) : Z :=
  Z.of_nat (length (filter (fun r => Is_true (motion_detected r)) l)).

Definition process_frame (fr : frame) (clock : nat -> timestamp)
    (self : MotionDetector) : FrameResult * MotionDetector :=
  let results := {| result_motion_detected := false;
                    rain_active := rain_detection_active self;
                    active_rois := count_active (rois self) |} in
  match rois self with
  | [] => (results, self)
  | _ =>
      let '(any, self') := detect_motion_in_rois fr clock self in
      ({| result_motion_detected := any;
          rain_active := rain_active results;
          active_rois := active_rois results |}, self')
  end.

End Detector.

(** A world written where a state is expected, also inside a pair, is
    read as that state. *)
Arguments pair {A B} & a b.

(** ** A reference [Vision] for concrete runs

    Frames are taken to be foreground masks already (the subtractor and the
    morphology are the identity).  The contour finder is exact on masks
    whose foreground is made of isolated pixels and at most one filled
    axis-aligned rectangle, where OpenCV returns a one-point contour per
    isolated pixel and the four corner pixels of the rectangle.
    [polygon_area] is the formula of [cv2.contourArea]. *)
Module Reference.

Definition pixel (m : mask) (x y : Z) : Z :=
  if (x <? 0) || (y <? 0) then 0
  else match m !! Z.to_nat y with
       | Some row => default 0 (row !! Z.to_nat x)
       | None => 0
       end.

(** Coordinates [(x, y)] of the non-zero pixels, row by row. *)
Definition fg_points (m : mask) : list (Z * Z) :=
  concat (imap (fun y row =>
                  omap (fun xv => if snd xv =? 0 then None
                                  else Some (fst xv, Z.of_nat y))
                       (imap (fun x v => (Z.of_nat x, v)) row)) m).

Definition isolated (m : mask) (p : Z * Z) : bool :=
  let '(x, y) := p in
  forallb (fun d => pixel m (x + fst d) (y + snd d) =? 0)
          [(-1, -1); (0, -1); (1, -1); (-1, 0); (1, 0); (-1, 1); (0, 1); (1, 1)].

Definition bounding_box (pts : list (Z * Z)) : list contour :=
  match pts with
  | [] => []
  | (x, y) :: rest =>
      let xmin := fold_left Z.min (map fst rest) x in
      let xmax := fold_left Z.max (map fst rest) x in
      let ymin := fold_left Z.min (map snd rest) y in
      let ymax := fold_left Z.max (map snd rest) y in
      [[(xmin, ymin); (xmin, ymax); (xmax, ymax); (xmax, ymin)]]
  end.

Definition find_contours (m : mask) : list contour :=
  let pts := fg_points m in
  map (fun p => [p]) (filter (fun p => Is_true (isolated m p)) pts)
  ++ bounding_box (filter (fun p => ¬ Is_true (isolated m p)) pts).

(** Twice the signed area: the sum of [prev.x * y - x * prev.y] around the
    polygon, starting from the last vertex. *)
Fixpoint shoelace (prev : Z * Z) (c : contour) : Z :=
  match c with
  | [] => 0
  | p :: rest => fst prev * snd p - fst p * snd prev + shoelace p rest
  end.

Definition polygon_area (c : contour) : Q :=
  match c with
  | [] => 0%Q
  | p :: _ => (Z.abs (shoelace (List.last c p) c) # 2)%Q
  end.

#[export] Instance vision : Vision := {|
  frame := mask;
  subtractor := unit;
  foreground := fun s fr => (s, fr);
  findContours := find_contours;
  contourArea := polygon_area
|}.

(** Test masks. *)
Definition blank (w h : nat) : mask := replicate h (replicate w 0).

Definition paint (inside : Z -> Z -> bool) (m : mask) : mask :=
  imap (fun y row =>
          imap (fun x v => if inside (Z.of_nat x) (Z.of_nat y) then 255 else v)
               row) m.

(** A filled rectangle covering columns [x1..x2-1] and rows [y1..y2-1]. *)
Definition in_rect (x1 y1 x2 y2 : Z) (x y : Z) : bool :=
  (x1 <=? x) && (x <? x2) && (y1 <=? y) && (y <? y2).

(** [k] isolated pixels on row [y], at columns 0, 2, 4, ... *)
Definition in_specks (k y0 : Z) (x y : Z) : bool :=
  (y =? y0) && Z.even x && (x <? 2 * k).

Definition fresh (cfg : DetectorConfig) : MotionDetector := {|
  config := cfg;
  background_subtractor := tt;
  rois := [];
  motion_history := ∅;
  rain_detection_active := false;
  last_notification_time := 0%Q
|}.

Definition clock0 : nat -> timestamp := fun _ => 0%Q.

Definition empty_disk : filesystem :=
  {| nodes := ∅; read_only := ∅; short_write := ∅ |}.

(** A detector that found no ROI file at start-up. *)
Definition world0 : world :=
  {| det := fresh default_config; disk := empty_disk |}.

(** The world after a call that leaves the ROI attribute a list. *)
Definition after {A} (call : py A) (w : world) : world := snd (call w).

Definition after_two_adds : world :=
  after (add_roi 10 10 50 50) (after (add_roi 0 0 40 40) world0).

Definition full_store : world :=
  after (add_roi 3 3 9 9) (after (add_roi 2 2 8 8) after_two_adds).

Definition five_records : list roi :=
  map (fun i => {| roi_id := i; coords := (0, 0, 40, 40);
                   motion_detected := false; last_motion_time := None |})
      [1; 2; 3; 4; 5].

Definition disk_with_five : filesystem :=
  set_node "config/rois.json" (File (Doc five_records)) empty_disk.

(** Frames of 102 x 42 pixels: an object filling the rectangle
    (0, 0)-(40, 40); fifty-one isolated specks on the bottom row; both;
    and an empty scene. *)
Definition scene : mask := blank 102 42.
Definition moving : mask := paint (in_rect 0 0 40 40) scene.
Definition rainy : mask := paint (in_specks 51 41) scene.
Definition moving_in_rain : mask := paint (in_specks 51 41) moving.

(** A frame of 50 x 50 pixels, all foreground. *)
Definition flooded : mask := paint (fun _ _ => true) (blank 50 50).

(** Feeding frames one after the other. *)
Definition feed (frames : list mask) (self : MotionDetector) : MotionDetector :=
  fold_left (fun d fr => snd (process_frame fr clock0 d)) frames self.

(** One ROI, id 1, over the rectangle (0, 0)-(40, 40). *)
Definition one_roi : MotionDetector := det (after (add_roi 0 0 40 40) world0).

Definition with_smoothing (n : Z) (cfg : DetectorConfig) : DetectorConfig :=
  {| motion_threshold := motion_threshold cfg;
     min_contour_area := min_contour_area cfg;
     max_small_contours := max_small_contours cfg;
     motion_smoothing_frames := n;
     bg_history := bg_history cfg;
     bg_var_threshold := bg_var_threshold cfg;
     bg_detect_shadows := bg_detect_shadows cfg;
     max_rois := max_rois cfg;
     roi_config_file := roi_config_file cfg |}.

(** The same ROI under a window of five frames. *)
Definition one_roi_window5 : MotionDetector :=
  det (after (add_roi 0 0 40 40)
         {| det := fresh (with_smoothing 5 default_config);
            disk := empty_disk |}).

Definition roi_at (x1 y1 x2 y2 : Z) : roi :=
  {| roi_id := 1; coords := (x1, y1, x2, y2);
     motion_detected := false; last_motion_time := None |}.

End Reference.

(** ** Vocabulary of the statements *)

Section Vocabulary.
Context {V : Vision}.

Definition roi_count (w : world) : Z := Z.of_nat (length (rois (det w))).
Definition capacity (w : world) : Z := max_rois (config (det w)).

(** The worlds reached after each call of a sequence of [add_roi] calls. *)
Fixpoint add_trace (calls : list (Z * Z * Z * Z)) (w : world) : list world :=
  match calls with
  | [] => []
  | (x1, y1, x2, y2) :: rest =>
      let w' : world := snd (add_roi x1 y1 x2 y2 w) in
      w' :: add_trace rest w'
  end.

(** The pixel in row [i] and column [j] of a mask. *)
Definition pixel_at (m : mask) (i j : nat) : option Z :=
  match m !! i with
  | Some row => row !! j
  | None => None
  end.

(** The [id] and [coords] of every record, in list order. *)
Definition identities (l : list roi) : list (Z * (Z * Z * Z * Z)) :=
  map (fun r => (roi_id r, coords r)) l.

(** The majority rule for a window of size [n]: the window is full and
    holds at least [n // 2 + 1] true entries. *)
Definition majority_rule (n : Z) (hist : list bool) : bool :=
  (n <=? Z.of_nat (length hist)) && (n / 2 + 1 <=? py_sum_bool hist).

End Vocabulary.

(** ** Construction, call sequences and the web front end *)

Section Callers.
Context {V : Vision}.

#[local] Existing Instance py_ret.
#[local] Existing Instance py_bind.

(** [MotionDetector.__init__] (lines 119-141) on a given disk.  [model] is
    the subtractor that [cv2.createBackgroundSubtractorMOG2] returns; the
    sleep-prevention helper holds a thread and is left out.  The result of
    the closing [self.load_rois()] is dropped, as in the source. *)
Definition MotionDetector_init (cfg : option DetectorConfig) (model : subtractor)
    (d : filesystem) : state :=
  snd (load_rois None
         {| det := {| config := default default_config cfg;
                      background_subtractor := model;
                      rois := [];
                      motion_history := ∅;
                      rain_detection_active := false;
                      last_notification_time := 0%Q |};
            disk := d |}).

(** The calls a client makes on one detector. *)
Inductive call :=
  | Add (x1 y1 x2 y2 : Z)
  | Delete (i : Z)
  | Clear
  | Save (filename : option string)
  | Frame (fr : frame) (clock : nat -> timestamp).

(** One call on a detector whose ROI attribute is a list; each of these
    calls leaves it a list. *)
Definition run_call (c : call) (w : world) : world :=
  match c with
  | Add x1 y1 x2 y2 => snd (add_roi x1 y1 x2 y2 w)
  | Delete i => snd (delete_roi i w)
  | Clear => snd (clear_rois w)
  | Save filename => snd (save_rois filename w)
  | Frame fr clock =>
      {| det := snd (process_frame fr clock (det w)); disk := disk w |}
  end.

Definition run_calls (cs : list call) (w : world) : world :=
  fold_left (fun w c => run_call c w) cs w.

(** The body shared by the ROI routes of web/app.py: [detector] is
    [web_detector.detector], with a list as its ROI attribute (the routes
    leave it one); a missing detector and an exception both answer
    [{'success': False}]. *)
Definition on_detector (body : py bool) (detector : option MotionDetector)
    (d : filesystem) : bool * option MotionDetector * filesystem :=
  match detector with
  | Some self =>
      match body {| det := self; disk := d |} with
      | (Returns success, w) => (success, Some (det w), disk w)
      | (Raises _, w) => (false, Some (det w), disk w)
      end
  | None => (false, None, d)
  end.

(** [api_add_roi] (lines 254-269), for integer coordinates. *)
Definition api_add_roi (x1 y1 x2 y2 : Z) :=
  on_detector (success ← add_roi x1 y1 x2 y2;
               if success : bool then save_rois None;; mret success
               else mret success).

(** [api_delete_roi] (lines 271-283). *)
Definition api_delete_roi (i : Z) :=
  on_detector (success ← delete_roi i;
               if success : bool then save_rois None;; mret success
               else mret success).

(** [api_clear_rois] (lines 285-296). *)
Definition api_clear_rois :=
  on_detector (clear_rois;; save_rois None;; mret true).

(** [WebDetector.stats]. *)
Record Stats := {
  fps : Q;
  camera_status : string;
  total_detections : Z;
  last_detection_time : option string;
  rain_detected : bool;
  stats_active_rois : Z;
  motion_detected_rois : list Z
}.

(** The "Process frame with detector" block of [WebDetector._camera_loop]
    (lines 123-137); [now] is [datetime.now().isoformat()]. *)
Definition update_stats (fr : frame) (clock : nat -> timestamp) (now : string)
    (st : Stats) (detector : option MotionDetector)
    : Stats * option MotionDetector :=
  match detector with
  | Some self =>
      let '(results, self') := process_frame fr clock self in
      let detected := result_motion_detected results in
      ({| fps := fps st;
          camera_status := camera_status st;
          total_detections :=
            if detected then total_detections st + 1 else total_detections st;
          last_detection_time :=
            if detected then Some now else last_detection_time st;
          rain_detected := rain_active results;
          stats_active_rois := Z.of_nat (length (rois self'));
          motion_detected_rois :=
            map roi_id (filter (fun r => Is_true (motion_detected r))
                               (rois self')) |},
       Some self')
  | None => (st, None)
  end.

(** Predicates of the statements. *)

(** The ids are positive and strictly increasing along the list. *)
Fixpoint ids_increasing (above : Z) (l : list roi) : Prop :=
  match l with
  | [] => True
  | r :: rest => above < roi_id r /\ ids_increasing (roi_id r) rest
  end.

(** Every window belongs to a configured ROI and holds at most
    [motion_smoothing_frames] entries. *)
Definition history_tidy (self : MotionDetector) : Prop :=
  forall k h, motion_history self !! k = Some h ->
    k ∈ map roi_id (rois self) /\
    Z.of_nat (length h) <= motion_smoothing_frames (config self).

(** Every directory above [p] is missing or is a directory. *)
Definition parents_clear (p : string) (d : filesystem) : Prop :=
  Forall (fun q => nodes d !! q = None \/ nodes d !! q = Some Directory)
         (parent_dirs p).

(** Nothing prevents a write to [p]. *)
Definition writable (p : string) (d : filesystem) : Prop :=
  (p ∉ read_only d) /\ (p ∉ short_write d) /\ parents_clear p d /\
  nodes d !! p <> Some Directory /\ nodes d !! p <> Some Protected.

End Callers.

Section CallersVocabulary.
Context {V : Vision}.

(** The answer of an ROI route on detector [self] and disk [d]: on
    success the configuration file holds the ROI list now in memory; on
    failure nothing changed. *)
Definition in_sync (self : MotionDetector) (d : filesystem)
    (out : bool * option MotionDetector * filesystem) : Prop :=
  exists self',
    out.1.2 = Some self' /\
    config self' = config self /\
    if out.1.1
    then nodes out.2 !! roi_config_file (config self)
         = Some (File (Doc (rois self')))
    else self' = self /\ out.2 = d.

End CallersVocabulary.

(** Worlds and call sequences for the concrete runs of the further
    properties. *)
Module Scenarios.

Definition config_path : string := "config/rois.json".

(** The detector holding ROIs 1 and 2, on a given disk. *)
Definition two_rois_on (d : filesystem) : world :=
  {| det := det Reference.after_two_adds; disk := d |}.

(** A disk whose configuration file holds five records and on which writes
    to that file break off. *)
Definition failing_disk : filesystem :=
  {| nodes := {[ config_path := File (Doc Reference.five_records) ]};
     read_only := ∅;
     short_write := {[ config_path ]} |}.

(** A disk on which the configuration directory cannot be created. *)
Definition locked_disk : filesystem :=
  {| nodes := ∅; read_only := {[ config_path ]}; short_write := ∅ |}.

(** Adds, a delete, a frame, a clear and an add again. *)
Definition session : list (@call Reference.vision) :=
  [Add 0 0 40 40; Add 10 10 50 50; Delete 1; Add 5 5 45 45;
   @Frame Reference.vision Reference.moving Reference.clock0; Save None;
   Clear;
   Add 1 1 9 9].

(** The same without the final clear: ROIs 2 and 3 have seen one frame. *)
Definition short_session : list (@call Reference.vision) :=
  [Add 0 0 40 40; Add 10 10 50 50; Delete 1; Add 5 5 45 45;
   @Frame Reference.vision Reference.moving Reference.clock0].

End Scenarios.

(** * Properties *)

Ltac run_py :=
  unfold mbind, mret, py_bind, py_ret, bind_py, ret_py, raise, try_except,
    get_self, put_self, get_disk, put_disk in *; simpl in *.


Section StoreFacts.
Context {V : Vision}.

(** [add_roi] as a function of the store. *)
Lemma add_roi_unfold x1 y1 x2 y2 (w : world) :
  add_roi x1 y1 x2 y2 w =
  if roi_count w >=? capacity w then (Returns false, w)
  else (Returns true,
        {| det := set_rois
                    (rois (det w) ++
                     [{| roi_id := py_max_default0 (map roi_id (rois (det w))) + 1;
                         coords := (x1, y1, x2, y2);
                         motion_detected := false;
                         last_motion_time := None |}]) (det w);
           disk := disk w |}).
Proof.
  unfold add_roi, add_roi_body, roi_count, capacity. run_py.
  destruct (Z.of_nat (length (rois (det w))) >=? max_rois (config (det w)));
    reflexivity.
Qed.

Lemma add_roi_config x1 y1 x2 y2 (w : world) :
  capacity (snd (add_roi x1 y1 x2 y2 w)) = capacity w.
Proof.
  rewrite add_roi_unfold. destruct (roi_count w >=? capacity w); reflexivity.
Qed.

Lemma add_roi_bounded x1 y1 x2 y2 (w : world) :
  roi_count w <= capacity w ->
  roi_count (snd (add_roi x1 y1 x2 y2 w)) <= capacity w.
Proof.
  intros Hle. rewrite add_roi_unfold.
  destruct (roi_count w >=? capacity w) eqn:Hfull; simpl; [exact Hle|].
  unfold roi_count in *. simpl. rewrite length_app. simpl. lia.
Qed.

Lemma add_trace_bounded calls : forall w : world,
  roi_count w <= capacity w ->
  Forall (fun w' => roi_count w' <= capacity w) (add_trace calls w).
Proof.
  induction calls as [|[[[x1 y1] x2] y2] rest IH]; intros w Hle; simpl.
  - constructor.
  - constructor.
    + apply add_roi_bounded, Hle.
    + specialize (IH (snd (add_roi x1 y1 x2 y2 w))).
      rewrite add_roi_config in IH. apply IH, add_roi_bounded, Hle.
Qed.

Lemma py_max_default0_upper (ids : list Z) :
  Forall (fun i => i <= py_max_default0 ids) ids.
Proof.
  destruct ids as [|x rest]; [constructor|]. simpl.
  assert (Hmono : forall l a, a <= fold_left Z.max l a).
  { induction l as [|b l IH]; intros a; simpl; [lia|].
    specialize (IH (Z.max a b)). lia. }
  assert (Hall : forall l a, Forall (fun i => i <= fold_left Z.max l a) l).
  { induction l as [|b l IH]; intros a; simpl; constructor.
    - specialize (Hmono l (Z.max a b)). lia.
    - apply IH. }
  constructor; [apply Hmono | apply Hall].
Qed.

(** C4.  Capacity: starting from a store holding at most [max_rois] ROIs,
    after every call of any sequence of [add_roi] calls the list still
    holds at most [max_rois] entries; and [add_roi] on a store holding
    exactly [max_rois] entries returns [False] (it does not raise) and
    leaves the world, hence the ROI set, unchanged. *)
Theorem add_roi_capacity (w : world) (calls : list (Z * Z * Z * Z)) :
  roi_count w <= capacity w ->
  Forall (fun w' => roi_count w' <= capacity w) (add_trace calls w) /\
  (roi_count w = capacity w ->
   forall x1 y1 x2 y2, add_roi x1 y1 x2 y2 w = (Returns false, w)).
Proof.
  intros Hle. split.
  - apply add_trace_bounded, Hle.
  - intros Hfull x1 y1 x2 y2. rewrite add_roi_unfold.
    replace (roi_count w >=? capacity w) with true; [reflexivity|].
    symmetry. apply Z.geb_le. lia.
Qed.

(** C6 (as amended).  A successful [add_roi] appends one record whose id is
    [max(existing ids, default 0) + 1]; that id is strictly greater than
    every id in the store, so no lower id freed by a delete comes back. *)
Theorem add_roi_next_id (w w' : world) (x1 y1 x2 y2 : Z) :
  add_roi x1 y1 x2 y2 w = (Returns true, w') ->
  exists r,
    rois (det w') = rois (det w) ++ [r] /\
    roi_id r = py_max_default0 (map roi_id (rois (det w))) + 1 /\
    coords r = (x1, y1, x2, y2) /\
    Forall (fun r0 => roi_id r0 < roi_id r) (rois (det w)).
Proof.
  rewrite add_roi_unfold.
  destruct (roi_count w >=? capacity w); intros Heq; [discriminate|].
  injection Heq as <-. eexists. simpl. repeat split.
  pose proof (py_max_default0_upper (map roi_id (rois (det w)))) as Hup.
  rewrite Forall_map in Hup.
  eapply Forall_impl; [exact Hup|]. simpl. intros r0 Hr0. lia.
Qed.

(** ** Paths *)

Lemma weight_split_slash (s : string) :
  weight (split_slash s) = S (String.length s).
Proof.
  induction s as [|c rest IH]; [reflexivity|]. simpl.
  destruct (Ascii.eqb c slash); simpl; [rewrite IH; reflexivity|].
  destruct (split_slash rest) as [|piece pieces]; simpl in *; [discriminate|].
  lia.
Qed.

Lemma weight_filter (P : string -> Prop) `{!forall x, Decision (P x)}
    (l : list string) :
  (weight (filter P l) <= weight l)%nat.
Proof.
  induction l as [|x rest IH]; simpl; [lia|].
  rewrite filter_cons. destruct (decide (P x)); simpl; lia.
Qed.

Lemma weight_parts (s : string) :
  ((if absolute s then 1 else 0) + weight (parts s) <= S (String.length s))%nat.
Proof.
  unfold parts. rewrite <- weight_split_slash.
  destruct s as [|c rest]; simpl; [lia|].
  destruct (Ascii.eqb c slash); simpl.
  - rewrite filter_cons.
    destruct (decide (EmptyString <> EmptyString /\ EmptyString <> "."%string))
      as [[Hne _]|_]; [congruence|].
    pose proof (weight_filter
                  (fun x => x <> EmptyString /\ x <> "."%string)
                  (split_slash rest)). lia.
  - pose proof (weight_filter
                  (fun x => x <> EmptyString /\ x <> "."%string)
                  (match split_slash rest with
                   | [] => [String c EmptyString]
                   | piece :: pieces => String c piece :: pieces
                   end)). lia.
Qed.

Lemma length_append (a b : string) :
  String.length (String.append a b) = (String.length a + String.length b)%nat.
Proof. induction a as [|c a IH]; simpl; [reflexivity | rewrite IH; reflexivity]. Qed.

Lemma length_concat_slash (l : list string) :
  l <> [] -> S (String.length (String.concat "/" l)) = weight l.
Proof.
  induction l as [|x rest IH]; [congruence|]. intros _.
  destruct rest as [|y rest]; [simpl; lia|].
  change (String.concat "/" (x :: y :: rest))
    with (String.append x (String.append "/" (String.concat "/" (y :: rest)))).
  rewrite !length_append. simpl String.length at 2.
  specialize (IH ltac:(congruence)). simpl weight in *. lia.
Qed.

Lemma weight_app (l1 l2 : list string) :
  weight (l1 ++ l2) = (weight l1 + weight l2)%nat.
Proof. induction l1 as [|x l1 IH]; simpl; [reflexivity | rewrite IH; lia]. Qed.

Lemma prefixes_weight {A} (l pre : list A) :
  pre ∈ prefixes l -> exists rest, l = pre ++ rest /\ pre <> [].
Proof.
  revert pre. induction l as [|x l IH]; simpl; intros pre Hin.
  - apply elem_of_nil in Hin. contradiction.
  - apply elem_of_cons in Hin as [->|Hin].
    + exists l. split; [reflexivity | congruence].
    + apply list_elem_of_fmap in Hin as (pre0 & -> & Hpre0).
      destruct (IH _ Hpre0) as (rest & -> & _).
      exists rest. split; [reflexivity | congruence].
Qed.

(** A path is not one of the directories above it. *)
Lemma parent_dirs_not_self (s : string) : s ∉ parent_dirs s.
Proof.
  intros Hin. unfold parent_dirs in Hin.
  apply list_elem_of_fmap in Hin as (pre & Hs & Hpre).
  apply prefixes_weight in Hpre as (rest & Hsplit & Hne).
  pose proof (weight_parts s) as Hparts.
  assert (Hlast : (S (weight (removelast (parts s))) <= weight (parts s))%nat).
  { destruct (parts s) as [|x l _] using rev_ind.
    - simpl in Hsplit. destruct pre; [congruence | discriminate].
    - rewrite removelast_last, weight_app. simpl. lia. }
  rewrite Hsplit, weight_app in Hlast.
  assert (Hlen : String.length s
                 = ((if absolute s then 1 else 0) + String.length (String.concat "/" pre))%nat).
  { rewrite Hs at 1. unfold render. rewrite length_append.
    destruct (absolute s); reflexivity. }
  pose proof (length_concat_slash pre Hne). lia.
Qed.

(** ** Persistence *)

Lemma make_dirs_unfold (qs : list string) : forall s : state,
  make_dirs qs s =
  (match (dirs_made qs (disk s)).2 with
   | None => Returns tt
   | Some e => Raises e
   end,
   {| world_of := {| det := det s; disk := (dirs_made qs (disk s)).1 |};
      other_rois := other_rois s |}).
Proof.
  induction qs as [|q rest IH]; intros [[self d] other]; simpl.
  - reflexivity.
  - run_py. destruct (nodes d !! q) as [[| |c]|] eqn:Hq; simpl;
      try reflexivity; rewrite IH; reflexivity.
Qed.

Lemma dirs_made_sets (qs : list string) : forall d : filesystem,
  read_only (dirs_made qs d).1 = read_only d /\
  short_write (dirs_made qs d).1 = short_write d.
Proof.
  induction qs as [|q rest IH]; intros d; simpl; [split; reflexivity|].
  destruct (nodes d !! q) as [[| |c]|]; simpl; try (split; reflexivity);
    [apply IH | apply (IH (set_node q Directory d))].
Qed.

Lemma dirs_made_other (qs : list string) (p : string) : forall d : filesystem,
  p ∉ qs -> nodes (dirs_made qs d).1 !! p = nodes d !! p.
Proof.
  induction qs as [|q rest IH]; intros d Hp; simpl; [reflexivity|].
  apply not_elem_of_cons in Hp as [Hne Hrest].
  destruct (nodes d !! q) as [[| |c]|]; simpl; try reflexivity;
    rewrite IH by exact Hrest; [reflexivity|].
  simpl. apply lookup_insert_ne. congruence.
Qed.

Lemma dirs_made_clear (qs : list string) : forall d : filesystem,
  Forall (fun q => nodes d !! q = None \/ nodes d !! q = Some Directory) qs ->
  (dirs_made qs d).2 = None.
Proof.
  induction qs as [|q rest IH]; intros d Hall; simpl; [reflexivity|].
  apply Forall_cons in Hall as [Hq Hrest].
  destruct Hq as [Hq|Hq]; rewrite Hq; [|apply IH, Hrest].
  apply IH. eapply Forall_impl; [exact Hrest|]. simpl. intros q0 Hq0.
  destruct (decide (q = q0)) as [<-|Hne].
  - right. apply lookup_insert_eq.
  - rewrite lookup_insert_ne by exact Hne. exact Hq0.
Qed.

Lemma dirs_made_keeps_dirs (qs : list string) (p : string) :
  forall d : filesystem,
  nodes d !! p = Some Directory ->
  nodes (dirs_made qs d).1 !! p = Some Directory.
Proof.
  induction qs as [|q rest IH]; intros d Hp; simpl; [exact Hp|].
  destruct (nodes d !! q) as [[| |c]|] eqn:Hq; simpl; try exact Hp;
    apply IH; [exact Hp|].
  simpl. rewrite lookup_insert_ne; [exact Hp|]. congruence.
Qed.

Lemma dirs_made_creates (qs : list string) : forall d : filesystem,
  (dirs_made qs d).2 = None ->
  Forall (fun q => nodes (dirs_made qs d).1 !! q = Some Directory) qs.
Proof.
  induction qs as [|q rest IH]; intros d Hok; simpl in *; [constructor|].
  destruct (nodes d !! q) as [[| |c]|] eqn:Hq; simpl in *; try discriminate.
  - constructor; [|apply IH; exact Hok].
    apply dirs_made_keeps_dirs. exact Hq.
  - constructor; [|apply IH; exact Hok].
    apply dirs_made_keeps_dirs. simpl. apply lookup_insert_eq.
Qed.

(** [save_rois] on a detector whose ROI attribute is a list, case by
    case. *)
Lemma save_rois_unfold (filename : option string) (w : world) :
  let p := resolve filename (det w) in
  let made := dirs_made (parent_dirs p) (disk w) in
  save_rois filename w =
  if decide (p ∈ read_only (disk w)) then (Returns false, w)
  else match made.2 with
       | Some _ => (Returns false, {| det := det w; disk := made.1 |})
       | None =>
           match nodes (disk w) !! p with
           | Some Directory | Some Protected =>
               (Returns false, {| det := det w; disk := made.1 |})
           | _ =>
               if decide (p ∈ short_write (disk w))
               then (Returns false,
                     {| det := det w;
                        disk := set_node p (File Garbage) made.1 |})
               else (Returns true,
                     {| det := det w;
                        disk := set_node p (File (Doc (rois (det w)))) made.1 |})
           end
       end.
Proof.
  destruct w as [self d]. cbv zeta.
  pose proof (dirs_made_sets (parent_dirs (resolve filename self)) d) as [_ Hsw].
  pose proof (dirs_made_other (parent_dirs (resolve filename self))
                (resolve filename self) d (parent_dirs_not_self _)) as Hnode.
  unfold save_rois, save_rois_body, mkdir_parent, open_w, json_dump,
    rois_document. run_py.
  destruct (decide (resolve filename self ∈ read_only d)); simpl; [reflexivity|].
  rewrite make_dirs_unfold. simpl.
  destruct (dirs_made (parent_dirs (resolve filename self)) d) as [d1 [e|]];
    simpl in *; [reflexivity|].
  rewrite Hnode.
  assert (Htwice : forall c,
            set_node (resolve filename self) (File (Doc (rois self)))
              (set_node (resolve filename self) c d1)
            = set_node (resolve filename self) (File (Doc (rois self))) d1).
  { intros c. unfold set_node. simpl. rewrite insert_insert_eq. reflexivity. }
  destruct (nodes d !! resolve filename self) as [[| |c]|]; simpl;
    try reflexivity; rewrite Hsw;
    destruct (decide (resolve filename self ∈ short_write d));
    rewrite ?Htwice; reflexivity.
Qed.

(** [load_rois] on a detector whose ROI attribute is a list, case by
    case. *)
Lemma load_rois_unfold (filename : option string) (w : world) :
  load_rois filename w =
  match nodes (disk w) !! resolve filename (det w) with
  | Some (File (Doc l)) =>
      (Returns true, {| det := set_rois l (det w); disk := disk w |})
  | Some (File (Value v)) =>
      (Returns (bool_decide (is_Some (py_len v))),
       {| world_of := {| det := set_rois [] (det w); disk := disk w |};
          other_rois := Some v |})
  | _ => (Returns false, w)
  end.
Proof.
  destruct w as [self d]. unfold load_rois, load_rois_body, path_exists,
    open_r, json_load_rois, len_rois. run_py.
  destruct (nodes d !! resolve filename self) as [[| |[|l|v]]|] eqn:Hnode;
    simpl; rewrite ?Hnode; try reflexivity.
  destruct v; reflexivity.
Qed.

Lemma load_rois_body_raises (filename : option string) (w : world) (w' : state) e :
  load_rois_body filename w = (Raises e, w') ->
  load_rois filename w = (Returns false, w').
Proof.
  intros Hbody. unfold load_rois, try_except. rewrite Hbody. reflexivity.
Qed.

(** The disk after a completed write of [l] at [p]. *)
Lemma save_rois_success (filename : option string) (w w' : world) :
  save_rois filename w = (Returns true, w') ->
  det w' = det w /\
  nodes (disk w') !! resolve filename (det w) = Some (File (Doc (rois (det w)))).
Proof.
  rewrite save_rois_unfold. cbv zeta.
  destruct (decide (_ ∈ read_only (disk w))); [discriminate|].
  destruct (dirs_made _ (disk w)) as [d1 [e|]]; simpl; [discriminate|].
  destruct (nodes (disk w) !! resolve filename (det w)) as [[| |c]|];
    try discriminate;
    destruct (decide (_ ∈ short_write (disk w))); try discriminate;
    intros Heq; injection Heq as <-; simpl;
    (split; [reflexivity | apply lookup_insert_eq]).
Qed.

(** C7.  Round trip: when [save_rois] reports success, [load_rois] from the
    same path into any other detector sharing the disk (a fresh store
    included) succeeds, and its ROI list then has the ids and coords of the
    saved list, in the same order. *)
Theorem save_load_round_trip (w w1 : world) (other : MotionDetector)
    (saved_to loaded_from : option string) :
  save_rois saved_to w = (Returns true, w1) ->
  resolve loaded_from other = resolve saved_to (det w) ->
  exists w2,
    load_rois loaded_from {| det := other; disk := disk w1 |} = (Returns true, w2) /\
    identities (rois (det w2)) = identities (rois (det w)).
Proof.
  intros Hsave Hpath. apply save_rois_success in Hsave as [_ Hnode].
  eexists. rewrite load_rois_unfold. simpl. rewrite Hpath, Hnode.
  split; reflexivity.
Qed.

(** C9.  Neither [save_rois] nor [load_rois] lets an exception out: each
    returns a boolean in every world; whenever the body of the [try]
    raises (parent directory that cannot be made, unwritable or unreadable
    file, failed write, malformed content, content without length) the
    call returns [False] in the state the body left, which for [load_rois]
    is the state before the call unless the file holds a JSON value
    without length (null, a boolean, a number); and [load_rois] on an
    absent file returns [False] and leaves the world as it was. *)
Theorem persistence_never_raises (w : world) (filename : option string) :
  (exists b w', save_rois filename w = (Returns b, w')) /\
  (exists b w', load_rois filename w = (Returns b, w')) /\
  (forall e w', save_rois_body filename w = (Raises e, w') ->
                save_rois filename w = (Returns false, w')) /\
  (forall e w', load_rois_body filename w = (Raises e, w') ->
                load_rois filename w = (Returns false, w') /\
                (w' = w \/
                 exists v,
                   nodes (disk w) !! resolve filename (det w)
                     = Some (File (Value v)) /\
                   py_len v = None)) /\
  (nodes (disk w) !! resolve filename (det w) = None ->
   load_rois filename w = (Returns false, w)).
Proof.
  split; [|split; [|split; [|split]]].
  - unfold save_rois, try_except.
    destruct (save_rois_body filename w) as [[b|e] w']; eauto.
  - unfold load_rois, try_except.
    destruct (load_rois_body filename w) as [[b|e] w']; eauto.
  - intros e w' Hbody. unfold save_rois, try_except. rewrite Hbody.
    reflexivity.
  - intros e w' Hbody.
    pose proof (load_rois_body_raises _ _ _ _ Hbody) as Hload.
    split; [exact Hload|]. revert Hload. rewrite load_rois_unfold.
    destruct (nodes (disk w) !! resolve filename (det w)) as [[| |[|l|v]]|];
      try discriminate;
      try (intros Heq; injection Heq as <-; left; reflexivity).
    destruct (py_len v) as [n|] eqn:Hlen; simpl; [discriminate|].
    intros _. right. exists v. split; [reflexivity | exact Hlen].
  - intros Habsent. rewrite load_rois_unfold, Habsent. reflexivity.
Qed.

(** [load_rois] on a readable array: the list is replaced by the records
    of the file, whatever their number and whatever the list held. *)
Lemma load_rois_replaces (w : world) (filename : option string) (l : list roi) :
  nodes (disk w) !! resolve filename (det w) = Some (File (Doc l)) ->
  load_rois filename w =
  (Returns true, {| det := set_rois l (det w); disk := disk w |}).
Proof. intros Hnode. rewrite load_rois_unfold, Hnode. reflexivity. Qed.

End StoreFacts.

(** C10.  [load_rois] replaces the whole list by the records of the file
    without looking at [max_rois] or at the records: every readable array
    is stored as it is, and a file of five records loaded by a detector
    with [max_rois = 4] leaves five ROIs in the store, after which
    [add_roi], the only place where the bound is checked, refuses. *)
Theorem load_rois_ignores_capacity :
  (forall (V : Vision) (w : world) (filename : option string) (l : list roi),
     nodes (disk w) !! resolve filename (det w) = Some (File (Doc l)) ->
     load_rois filename w =
     (Returns true, {| det := set_rois l (det w); disk := disk w |})) /\
  (let w := {| det := Reference.fresh default_config;
               disk := Reference.disk_with_five |} in
   let w' := Reference.after (load_rois None) w in
   load_rois None w = (Returns true, w') /\
   capacity w' = 4 /\
   roi_count w' = 5 /\
   rois (det w') = Reference.five_records /\
   add_roi 0 0 10 10 w' = (Returns false, w')).
Proof.
  split.
  - intros V w filename l. apply load_rois_replaces.
  - vm_compute. repeat split.
Qed.

(** The capacity bound at work: a full store refuses a fifth ROI. *)
Lemma add_roi_capacity_witness :
  Forall (fun w' => roi_count w' <= 4)
         (add_trace [(1, 1, 5, 5)] Reference.full_store) /\
  add_roi 1 1 5 5 Reference.full_store = (Returns false, Reference.full_store).
Proof.
  destruct (add_roi_capacity Reference.full_store [(1, 1, 5, 5)]) as [Hall Hfull].
  - vm_compute. discriminate.
  - split; [exact Hall | apply Hfull; reflexivity].
Defined.

(** The example of the specification: add gives 1, add gives 2, delete 1,
    and the next add gives 3. *)
Lemma add_roi_next_id_witness :
  exists r,
    rois (det (Reference.after (add_roi 5 5 45 45)
                 (Reference.after (delete_roi 1) Reference.after_two_adds))) =
    rois (det (Reference.after (delete_roi 1) Reference.after_two_adds)) ++ [r] /\
    roi_id r = 3.
Proof.
  destruct (add_roi_next_id
              (Reference.after (delete_roi 1) Reference.after_two_adds)
              (Reference.after (add_roi 5 5 45 45)
                 (Reference.after (delete_roi 1) Reference.after_two_adds))
              5 5 45 45) as (r & Hrois & Hid & _).
  - vm_compute. reflexivity.
  - exists r. split; [exact Hrois | rewrite Hid; reflexivity].
Defined.

(** C6, the claim as stated fails: deleting the ROI with the greatest id
    frees that id, and the next [add_roi] hands it out again. *)
Lemma add_roi_reuses_greatest_id :
  map roi_id (rois (det Reference.after_two_adds)) = [1; 2] /\
  fst (delete_roi 2 Reference.after_two_adds) = Returns true /\
  map roi_id (rois (det (Reference.after (delete_roi 2) Reference.after_two_adds))) = [1] /\
  fst (add_roi 5 5 45 45 (Reference.after (delete_roi 2) Reference.after_two_adds))
    = Returns true /\
  map roi_id
    (rois (det (Reference.after (add_roi 5 5 45 45)
                  (Reference.after (delete_roi 2) Reference.after_two_adds))))
    = [1; 2].
Proof. vm_compute. repeat split. Qed.

(** A save into an empty disk, then a load by a freshly built detector. *)
Lemma save_load_round_trip_witness :
  exists w2,
    load_rois None {| det := Reference.fresh default_config;
                      disk := disk (Reference.after (save_rois None)
                                      Reference.after_two_adds) |}
      = (Returns true, w2) /\
    identities (rois (det w2)) = [(1, (0, 0, 40, 40)); (2, (10, 10, 50, 50))].
Proof.
  apply (save_load_round_trip Reference.after_two_adds
           (Reference.after (save_rois None) Reference.after_two_adds)
           (Reference.fresh default_config) None None).
  - vm_compute. reflexivity.
  - reflexivity.
Defined.

Section PipelineFacts.
Context {V : Vision}.

(** ** Temporal smoothing *)

Lemma consistent_motion_spec (n : Z) (hist : list bool) :
  consistent_motion n hist = true <->
  n <= Z.of_nat (length hist) /\ 2 <= py_sum_bool hist.
Proof.
  unfold consistent_motion. rewrite andb_true_iff, !Z.leb_le. reflexivity.
Qed.

Lemma majority_rule_spec (n : Z) (hist : list bool) :
  majority_rule n hist = true <->
  n <= Z.of_nat (length hist) /\ n / 2 + 1 <= py_sum_bool hist.
Proof.
  unfold majority_rule. rewrite andb_true_iff, !Z.leb_le. reflexivity.
Qed.

(** C3 (as amended).  The confirmed-motion value computed for an ROI is
    true exactly when its window holds at least [motion_smoothing_frames]
    entries and at least 2 of them are true; the bound 2 does not follow
    the window size.  It is the majority rule [n // 2 + 1] for windows of
    2 or 3 frames, hence for the default configuration. *)
Theorem smoothing_threshold_is_two (cfg : DetectorConfig) (fg_mask : mask)
    (now : timestamp) (history : gmap Z (list bool)) (r : roi) :
  let n := motion_smoothing_frames cfg in
  let window := roi_window cfg fg_mask history r in
  motion_detected (snd (roi_step cfg fg_mask false now history r))
    = consistent_motion n window /\
  (consistent_motion n window = true <->
   n <= Z.of_nat (length window) /\ 2 <= py_sum_bool window) /\
  consistent_motion 2 window = majority_rule 2 window /\
  consistent_motion 3 window = majority_rule 3 window /\
  motion_smoothing_frames default_config = 3.
Proof.
  intros n window. split; [|split; [|split; [|split]]].
  - unfold roi_step. simpl. apply andb_true_r.
  - apply consistent_motion_spec.
  - reflexivity.
  - reflexivity.
  - reflexivity.
Qed.

(** ** The per-ROI loop *)

Lemma roi_step_id cfg fg_mask rain now history r :
  roi_id (snd (roi_step cfg fg_mask rain now history r)) = roi_id r.
Proof. reflexivity. Qed.

Lemma roi_loop_ids cfg fg_mask rain clock l : forall i history,
  map roi_id (roi_loop cfg fg_mask rain clock i history l).1.2 = map roi_id l.
Proof.
  induction l as [|r rest IH]; intros i history; simpl; [reflexivity|].
  specialize (IH (S i) (<[roi_id r := roi_window cfg fg_mask history r]> history)).
  destruct (roi_loop cfg fg_mask rain clock (S i) _ rest) as [[h2 rest'] any].
  simpl in *. f_equal. exact IH.
Qed.

(** The loop only writes the windows of the ROIs it visits. *)
Lemma roi_loop_history_other cfg fg_mask rain clock l : forall i history k,
  k ∉ map roi_id l ->
  (roi_loop cfg fg_mask rain clock i history l).1.1 !! k = history !! k.
Proof.
  induction l as [|r rest IH]; intros i history k Hk; simpl; [reflexivity|].
  specialize (IH (S i) (<[roi_id r := roi_window cfg fg_mask history r]> history) k).
  destruct (roi_loop cfg fg_mask rain clock (S i) _ rest) as [[h2 rest'] any].
  simpl in *. rewrite not_elem_of_cons in Hk. destruct Hk as [Hne Hrest].
  rewrite IH by exact Hrest. apply lookup_insert_ne. congruence.
Qed.

(** The returned flag is the disjunction of the ROI flags, and under rain
    no flag is set. *)
Lemma roi_loop_gate cfg fg_mask rain clock l : forall i history,
  let out := roi_loop cfg fg_mask rain clock i history l in
  out.2 = existsb motion_detected out.1.2 /\
  Forall (fun r' => motion_detected r' && rain = false) out.1.2.
Proof.
  induction l as [|r rest IH]; intros i history; simpl.
  - split; [reflexivity | constructor].
  - specialize (IH (S i) (<[roi_id r := roi_window cfg fg_mask history r]> history)).
    destruct (roi_loop cfg fg_mask rain clock (S i) _ rest) as [[h2 rest'] any].
    simpl in *. destruct IH as [Hany Hall]. split.
    + rewrite Hany. reflexivity.
    + constructor; [|exact Hall]. simpl. destruct rain.
      * rewrite andb_false_r. reflexivity.
      * apply andb_false_r.
Qed.

(** With pairwise distinct ids, the window left in the history for an ROI
    is the one its flag was computed from. *)
Lemma roi_loop_windows cfg fg_mask rain clock l : forall i history,
  NoDup (map roi_id l) ->
  let out := roi_loop cfg fg_mask rain clock i history l in
  Forall (fun r' =>
            motion_detected r' =
            consistent_motion (motion_smoothing_frames cfg)
              (default [] (out.1.1 !! roi_id r')) && negb rain) out.1.2.
Proof.
  induction l as [|r rest IH]; intros i history Hnd; simpl; [constructor|].
  apply NoDup_cons in Hnd as [Hfresh Hnd].
  specialize (IH (S i) (<[roi_id r := roi_window cfg fg_mask history r]> history) Hnd).
  pose proof (roi_loop_history_other cfg fg_mask rain clock rest (S i)
                (<[roi_id r := roi_window cfg fg_mask history r]> history)
                (roi_id r) Hfresh) as Hkeep.
  destruct (roi_loop cfg fg_mask rain clock (S i) _ rest) as [[h2 rest'] any].
  simpl in *. constructor; [|exact IH].
  simpl. rewrite Hkeep, lookup_insert_eq. reflexivity.
Qed.

(** The [i]-th iteration runs [roi_step] on the history left by the
    iterations before it. *)
Lemma roi_loop_lookup cfg fg_mask rain clock l : forall k history i r,
  l !! i = Some r ->
  (roi_loop cfg fg_mask rain clock k history l).1.2 !! i =
  Some (roi_step cfg fg_mask rain (clock (k + i)%nat)
          (roi_loop cfg fg_mask rain clock k history (take i l)).1.1 r).2.
Proof.
  induction l as [|r0 rest IH]; intros k history i r Hi; [discriminate|].
  destruct i as [|i].
  - injection Hi as ->. simpl.
    destruct (roi_loop cfg fg_mask rain clock (S k) _ rest) as [[h2 rest'] any].
    simpl. rewrite Nat.add_0_r. reflexivity.
  - simpl in Hi. simpl.
    specialize (IH (S k) (<[roi_id r0 := roi_window cfg fg_mask history r0]> history)
                  i r Hi).
    destruct (roi_loop cfg fg_mask rain clock (S k) _ rest) as [[h2 rest'] any].
    destruct (roi_loop cfg fg_mask rain clock (S k) _ (take i rest))
      as [[h3 rest3] any3].
    simpl in *. rewrite IH. rewrite Nat.add_succ_r. reflexivity.
Qed.

(** ** Rain gate *)

Lemma detect_motion_in_rois_unfold fr clock self :
  rois self <> [] ->
  detect_motion_in_rois fr clock self =
  let fg_mask := (foreground (background_subtractor self) fr).2 in
  let rain := rain_pattern (config self) fg_mask in
  let out := roi_loop (config self) fg_mask rain clock 0 (motion_history self)
               (rois self) in
  (out.2,
   {| config := config self;
      background_subtractor := (foreground (background_subtractor self) fr).1;
      rois := out.1.2;
      motion_history := out.1.1;
      rain_detection_active := rain;
      last_notification_time := last_notification_time self |}).
Proof.
  intros Hne. unfold detect_motion_in_rois.
  destruct (rois self) as [|r rest] eqn:Hrois; [congruence|].
  destruct (foreground (background_subtractor self) fr) as [model fg_mask].
  cbv beta iota zeta delta [fst snd].
  destruct (roi_loop (config self) fg_mask (rain_pattern (config self) fg_mask)
              clock 0 (motion_history self) (r :: rest)) as [[h l] any].
  reflexivity.
Qed.

(** C5.  After [detect_motion_in_rois], the rain flag is the rain
    classifier's verdict on this frame's mask; no ROI flag, and not the
    returned flag either, is set together with the rain flag; the flag of
    the [i]-th ROI equals the smoothed value of the window it was given in
    its iteration AND NOT the rain flag; and when ids are pairwise distinct
    that window is the one found in the history afterwards. *)
Theorem rain_gate_precedence (fr : frame) (clock : nat -> timestamp)
    (self : MotionDetector) :
  let out := detect_motion_in_rois fr clock self in
  let rain := rain_detection_active out.2 in
  (rois self <> [] ->
   rain = rain_pattern (config self)
            (foreground (background_subtractor self) fr).2) /\
  out.1 && rain = false /\
  Forall (fun r' => motion_detected r' && rain = false) (rois out.2) /\
  (forall i r,
     rois self !! i = Some r ->
     let fg_mask := (foreground (background_subtractor self) fr).2 in
     let before :=
       (roi_loop (config self) fg_mask rain clock 0 (motion_history self)
          (take i (rois self))).1.1 in
     exists r',
       rois out.2 !! i = Some r' /\
       roi_id r' = roi_id r /\
       motion_detected r' =
       consistent_motion (motion_smoothing_frames (config self))
         (roi_window (config self) fg_mask before r) && negb rain) /\
  (NoDup (map roi_id (rois self)) ->
   Forall (fun r' =>
             motion_detected r' =
             consistent_motion (motion_smoothing_frames (config self))
               (default [] (motion_history out.2 !! roi_id r'))
             && negb rain) (rois out.2)).
Proof.
  assert (Hcases : rois self = [] \/ rois self <> []).
  { destruct (rois self); [left | right]; congruence. }
  destruct Hcases as [Hrois|Hne].
  - unfold detect_motion_in_rois. rewrite Hrois. simpl. rewrite Hrois.
    repeat split; try constructor; try congruence.
    intros i r Hi. discriminate.
  - rewrite (detect_motion_in_rois_unfold fr clock self Hne). cbv zeta. simpl.
    set (fg_mask := (foreground (background_subtractor self) fr).2).
    set (rain := rain_pattern (config self) fg_mask).
    pose proof (roi_loop_gate (config self) fg_mask rain clock (rois self) 0
                  (motion_history self)) as [Hany Hall].
    split; [reflexivity|]. split; [|split; [|split]].
    + rewrite Hany. clear Hany. induction Hall as [|r' l' Hr' _ IH]; simpl.
      * reflexivity.
      * rewrite andb_orb_distrib_l, Hr', IH. reflexivity.
    + exact Hall.
    + intros i r Hi. eexists. split; [|split].
      * apply (roi_loop_lookup (config self) fg_mask rain clock (rois self) 0
                 (motion_history self) i r Hi).
      * reflexivity.
      * reflexivity.
    + intros Hnd.
      apply (roi_loop_windows (config self) fg_mask rain clock (rois self) 0
               (motion_history self) Hnd).
Qed.

(** ** Frame result *)

(** What [process_frame] puts in [rain_active] and [active_rois] is read
    before the frame is handled. *)
Lemma process_frame_snapshot fr clock self :
  rain_active (process_frame fr clock self).1 = rain_detection_active self /\
  active_rois (process_frame fr clock self).1 = count_active (rois self).
Proof.
  unfold process_frame. destruct (rois self); [split; reflexivity|].
  destruct (detect_motion_in_rois fr clock self). split; reflexivity.
Qed.

(** C2 (as amended).  With an empty ROI list [process_frame] reports no
    motion and zero active ROIs, echoes the stored rain flag in
    [rain_active], and leaves the detector (history, background model,
    rain flag) untouched: no motion processing takes place. *)
Theorem process_frame_without_rois (fr : frame) (clock : nat -> timestamp)
    (self : MotionDetector) :
  rois self = [] ->
  process_frame fr clock self =
  ({| result_motion_detected := false;
      rain_active := rain_detection_active self;
      active_rois := 0 |}, self).
Proof.
  intros Hempty. unfold process_frame. rewrite Hempty. reflexivity.
Qed.

(** ** ROI crop *)

Lemma length_py_slice {A} (l : list A) (start stop : Z) :
  0 <= start -> 0 <= stop ->
  Z.of_nat (length (py_slice l start stop)) =
  Z.max 0 (Z.min stop (Z.of_nat (length l)) - Z.min start (Z.of_nat (length l))).
Proof.
  intros Hstart Hstop. unfold py_slice, slice_index.
  destruct (Z.ltb_spec start 0); [lia|].
  destruct (Z.ltb_spec stop 0); [lia|].
  rewrite length_take, length_drop. lia.
Qed.

Lemma py_slice_beyond {A} (l : list A) (start stop : Z) :
  Z.of_nat (length l) <= start -> py_slice l start stop = [].
Proof.
  intros Hbeyond. unfold py_slice, slice_index.
  destruct (Z.ltb_spec start 0); [lia|].
  rewrite drop_ge by lia. apply take_nil.
Qed.

Lemma py_slice_subset {A} (P : A -> Prop) (l : list A) (start stop : Z) :
  Forall P l -> Forall P (py_slice l start stop).
Proof.
  intros Hall. unfold py_slice. apply Forall_take, Forall_drop, Hall.
Qed.

Lemma concat_all_nil {A} (rows : list (list A)) :
  Forall (fun row => row = []) rows -> concat rows = [].
Proof.
  induction 1 as [|row rows Hrow _ IH]; simpl; [reflexivity|].
  rewrite Hrow, IH. reflexivity.
Qed.

Lemma area_gt_zero (k : Z) : 0 <= k -> area_gt 0%Q k = false.
Proof.
  intros Hk. unfold area_gt, Qle_bool. simpl.
  apply negb_false_iff, Z.leb_le. lia.
Qed.

Lemma py_slice_nonneg {A} (l : list A) (start stop : Z) :
  0 <= start -> 0 <= stop ->
  py_slice l start stop
  = take (Z.to_nat (stop - start)) (drop (Z.to_nat start) l).
Proof.
  intros Hstart Hstop. unfold py_slice, slice_index.
  destruct (Z.ltb_spec start 0); [lia|].
  destruct (Z.ltb_spec stop 0); [lia|].
  destruct (Z.le_gt_cases (Z.of_nat (length l)) start) as [Hbeyond|Hinside].
  - rewrite !(drop_ge l) by lia. rewrite !take_nil. reflexivity.
  - replace (Z.min start (Z.of_nat (length l))) with start by lia.
    destruct (Z.le_gt_cases stop (Z.of_nat (length l))) as [Hfits|Hover].
    + replace (Z.min stop (Z.of_nat (length l))) with stop by lia. reflexivity.
    + rewrite !take_ge; [reflexivity | |]; rewrite length_drop; lia.
Qed.

Lemma lookup_py_slice {A} (l : list A) (start stop : Z) (i : nat) :
  0 <= start -> 0 <= stop ->
  py_slice l start stop !! i
  = if Z.of_nat i <? stop - start then l !! (Z.to_nat start + i)%nat else None.
Proof.
  intros Hstart Hstop. rewrite py_slice_nonneg by assumption.
  rewrite lookup_take, lookup_drop.
  destruct (Z.ltb_spec (Z.of_nat i) (stop - start));
    destruct (decide (i < Z.to_nat (stop - start))%nat); try reflexivity; lia.
Qed.

Lemma lookup_map {A B} (f : A -> B) (l : list A) (i : nat) :
  map f l !! i = f <$> (l !! i).
Proof. apply (list_lookup_fmap f l i). Qed.

Lemma area_gt_zero_iff (k : Z) : area_gt 0%Q k = (k <? 0).
Proof.
  unfold area_gt, Qle_bool. simpl.
  destruct (Z.leb_spec 0 (k * 1)); destruct (Z.ltb_spec k 0);
    try reflexivity; lia.
Qed.

(** C8 (as amended).  On a frame of [height] rows and [width] columns and
    for an ROI with non-negative corners, the crop is the part of the
    rectangle that lies inside the frame, pixel for pixel: as many rows and
    columns as the frame leaves of the rectangle (an undersized or empty
    region as soon as the rectangle sticks out to the right or below), and
    pixel [(i, j)] of the crop is pixel [(y1 + i, x1 + j)] of the mask.
    When the rectangle starts at or beyond the right or bottom edge the
    crop has no pixel, and then, with a contour finder that returns no
    contour on an empty image, [total_area] is 0 and the raw decision is
    negative unless [motion_threshold] is negative. *)
Theorem crop_outside_frame (cfg : DetectorConfig) (fg_mask : mask)
    (width height : Z) (r : roi) (x1 y1 x2 y2 : Z) :
  (forall m : mask, concat m = [] -> findContours m = []) ->
  Z.of_nat (length fg_mask) = height ->
  Forall (fun row => Z.of_nat (length row) = width) fg_mask ->
  coords r = (x1, y1, x2, y2) ->
  0 <= x1 -> 0 <= y1 -> 0 <= x2 -> 0 <= y2 ->
  Z.of_nat (length (roi_mask_of fg_mask r))
    = Z.max 0 (Z.min y2 height - Z.min y1 height) /\
  Forall (fun row => Z.of_nat (length row)
                     = Z.max 0 (Z.min x2 width - Z.min x1 width))
         (roi_mask_of fg_mask r) /\
  (forall i j : nat,
     pixel_at (roi_mask_of fg_mask r) i j
     = if (Z.of_nat i <? y2 - y1) && (Z.of_nat j <? x2 - x1)
       then pixel_at fg_mask (Z.to_nat y1 + i) (Z.to_nat x1 + j)
       else None) /\
  (width <= x1 \/ height <= y1 ->
   concat (roi_mask_of fg_mask r) = [] /\
   total_area cfg (roi_mask_of fg_mask r) = 0%Q /\
   raw_motion cfg fg_mask r = (motion_threshold cfg <? 0)).
Proof.
  intros Hfinder Hheight Hwidth Hcoords Hx1 Hy1 Hx2 Hy2.
  unfold raw_motion, roi_mask_of. rewrite Hcoords. unfold crop.
  split; [|split; [|split]].
  - rewrite length_map, length_py_slice by assumption. rewrite Hheight.
    reflexivity.
  - apply Forall_map.
    eapply Forall_impl; [apply py_slice_subset, Hwidth|].
    simpl. intros row Hrow.
    rewrite length_py_slice by assumption. rewrite Hrow. reflexivity.
  - intros i j. unfold pixel_at. cbv beta iota zeta.
    pose proof (lookup_map (fun row : list Z => py_slice row x1 x2)
                  (py_slice fg_mask y1 y2) i) as Hrow.
    pose proof (lookup_py_slice fg_mask y1 y2 i Hy1 Hy2) as Hi.
    unfold mask in *. rewrite Hrow, Hi.
    destruct (Z.of_nat i <? y2 - y1); simpl; [|reflexivity].
    destruct (fg_mask !! (Z.to_nat y1 + i)%nat) as [row|]; simpl.
    + apply lookup_py_slice; assumption.
    + destruct (Z.of_nat j <? x2 - x1); reflexivity.
  - intros Houtside.
    assert (Hempty : concat (map (fun row => py_slice row x1 x2)
                               (py_slice fg_mask y1 y2)) = []).
    { destruct Houtside as [Hright|Hbelow].
      - apply concat_all_nil, Forall_map.
        eapply Forall_impl; [apply py_slice_subset, Hwidth|].
        simpl. intros row Hrow. apply py_slice_beyond. lia.
      - rewrite py_slice_beyond by lia. reflexivity. }
    assert (Harea : total_area cfg (map (fun row => py_slice row x1 x2)
                                      (py_slice fg_mask y1 y2)) = 0%Q).
    { unfold total_area, large_contours. rewrite (Hfinder _ Hempty).
      reflexivity. }
    split; [exact Hempty|]. split; [exact Harea|].
    rewrite Harea. apply area_gt_zero_iff.
Qed.

End PipelineFacts.

(** ** Concrete runs on the reference [Vision] *)

Lemma concat_nil_rows {A} (rows : list (list A)) :
  concat rows = [] -> Forall (fun row => row = []) rows.
Proof.
  induction rows as [|row rows IH]; simpl; intros Hnil; [constructor|].
  apply app_eq_nil in Hnil as [Hrow Hrest]. constructor; auto.
Qed.

Lemma concat_imap_nil {A B} (rows : list (list A)) :
  Forall (fun row => row = []) rows ->
  forall f : nat -> list A -> list B,
    (forall i, f i [] = []) -> concat (imap f rows) = [].
Proof.
  induction 1 as [|row rows Hrow _ IH]; intros f Hf; simpl; [reflexivity|].
  rewrite Hrow, Hf. simpl. apply IH. intros i. apply Hf.
Qed.

(** The reference finder reports nothing on an image without pixels. *)
Lemma reference_finder_empty (m : mask) :
  concat m = [] -> Reference.find_contours m = [].
Proof.
  intros Hnil. unfold Reference.find_contours.
  assert (Hpts : Reference.fg_points m = []).
  { unfold Reference.fg_points.
    apply concat_imap_nil; [apply concat_nil_rows, Hnil | reflexivity]. }
  rewrite Hpts. reflexivity.
Qed.

(** C1, the code against the claim.  [process_frame] fills [rain_active]
    and [active_rois] before it calls [detect_motion_in_rois], so both
    describe the previous frame.  On a detector with one ROI: a first,
    rainy frame is reported with [rain_active = False] although the
    classifier has just set the flag, and the clear frame that follows is
    reported with [rain_active = True]; the third of three frames with an
    object in the ROI returns [motion_detected = True] together with
    [active_rois = 0], while one ROI is flagged after it. *)
Theorem process_frame_reports_previous_frame :
  (forall (V : Vision) (fr : frame) (clock : nat -> timestamp)
          (self : MotionDetector),
     rain_active (process_frame fr clock self).1 = rain_detection_active self /\
     active_rois (process_frame fr clock self).1 = count_active (rois self)) /\
  (let out := process_frame (V := Reference.vision) Reference.rainy Reference.clock0 Reference.one_roi in
   rain_active out.1 = false /\ rain_detection_active out.2 = true) /\
  (let out := process_frame (V := Reference.vision) Reference.scene Reference.clock0
                (Reference.feed [Reference.rainy] Reference.one_roi) in
   rain_active out.1 = true /\ rain_detection_active out.2 = false) /\
  (let out := process_frame (V := Reference.vision) Reference.moving Reference.clock0
                (Reference.feed [Reference.moving; Reference.moving]
                   Reference.one_roi) in
   result_motion_detected out.1 = true /\
   active_rois out.1 = 0 /\
   count_active (rois out.2) = 1).
Proof.
  split; [|split; [|split]].
  - intros V fr clock self. apply process_frame_snapshot.
  - vm_compute. split; reflexivity.
  - vm_compute. split; reflexivity.
  - vm_compute. repeat split.
Qed.

(** C2, the claim as stated fails: after a rainy frame the ROIs are
    cleared, and the next frame is reported with rain active. *)
Lemma process_frame_without_rois_keeps_rain :
  let self := det (Reference.after clear_rois
                     {| det := Reference.feed [Reference.rainy] Reference.one_roi;
                        disk := Reference.empty_disk |}) in
  rois self = [] /\
  rain_active (process_frame (V := Reference.vision) Reference.scene Reference.clock0 self).1 = true.
Proof. vm_compute. split; reflexivity. Qed.

(** A detector that has no ROI and never saw rain reports rain inactive. *)
Lemma process_frame_without_rois_witness :
  process_frame (V := Reference.vision) Reference.scene Reference.clock0
    (Reference.fresh default_config)
  = ({| result_motion_detected := false; rain_active := false;
        active_rois := 0 |}, Reference.fresh default_config).
Proof.
  apply (process_frame_without_rois (V := Reference.vision)
           Reference.scene Reference.clock0 (Reference.fresh default_config)).
  reflexivity.
Defined.

(** C3, the claim as stated fails: with a window of five frames, two
    positive frames followed by three negative ones confirm motion on the
    fifth frame, where the majority rule asks for three positives. *)
Lemma two_of_five_confirms :
  let self := Reference.feed
                [Reference.moving; Reference.moving; Reference.scene;
                 Reference.scene; Reference.scene] Reference.one_roi_window5 in
  motion_smoothing_frames (config self) = 5 /\
  motion_history self !! 1 = Some [true; true; false; false; false] /\
  map motion_detected (rois self) = [true] /\
  majority_rule 5 [true; true; false; false; false] = false.
Proof. vm_compute. repeat split. Qed.

(** An object in the ROI for three frames, the third one under rain: the
    window is all positive, the rain flag is up and the ROI stays
    unflagged. *)
Lemma rain_gate_precedence_witness :
  let self := Reference.feed [Reference.moving; Reference.moving]
                Reference.one_roi in
  let out := detect_motion_in_rois (V := Reference.vision)
               Reference.moving_in_rain Reference.clock0 self in
  let rain := rain_detection_active out.2 in
  (rain = true /\ motion_history out.2 !! 1 = Some [true; true; true] /\
   map motion_detected (rois out.2) = [false]) /\
  rain = rain_pattern (V := Reference.vision) (config self)
           Reference.moving_in_rain /\
  out.1 && rain = false /\
  Forall (fun r' => motion_detected r' && rain = false) (rois out.2) /\
  Forall (fun r' =>
            motion_detected r' =
            consistent_motion (motion_smoothing_frames (config self))
              (default [] (motion_history out.2 !! roi_id r'))
            && negb rain) (rois out.2).
Proof.
  intros self out rain.
  destruct (rain_gate_precedence (V := Reference.vision)
              Reference.moving_in_rain Reference.clock0 self)
    as (Hrain & Hany & Hall & _ & Hwin).
  split; [vm_compute; repeat split|].
  split; [apply Hrain; vm_compute; discriminate|].
  split; [exact Hany|].
  split; [exact Hall|].
  apply Hwin.
  assert (Hids : map roi_id (rois self) = [1]) by (vm_compute; reflexivity).
  rewrite Hids. apply NoDup_singleton.
Defined.

(** C8, the claim as stated fails.  On a frame of 50 x 50 foreground
    pixels, the rectangle (10, 10)-(100, 100), partly outside, is clipped
    to 40 x 40 pixels and scores an area of 1521; the rectangle
    (-45, -45)-(-5, -5), wholly outside, is wrapped by the slice to rows
    and columns 5..44 and scores the same. *)
Lemma outside_rectangles_score :
  let cfg := default_config in
  let partly := Reference.roi_at 10 10 100 100 in
  let wholly := Reference.roi_at (-45) (-45) (-5) (-5) in
  length (roi_mask_of Reference.flooded partly) = 40%nat /\
  Qeq (total_area (V := Reference.vision) cfg
         (roi_mask_of Reference.flooded partly)) (1521 # 1) /\
  raw_motion (V := Reference.vision) cfg Reference.flooded partly = true /\
  length (roi_mask_of Reference.flooded wholly) = 40%nat /\
  Qeq (total_area (V := Reference.vision) cfg
         (roi_mask_of Reference.flooded wholly)) (1521 # 1) /\
  raw_motion (V := Reference.vision) cfg Reference.flooded wholly = true.
Proof. vm_compute. repeat split. Qed.

(** A rectangle beyond the right edge of the 50 x 50 frame: thirty rows of
    no pixel, and no area. *)
Lemma crop_outside_frame_witness :
  let r := Reference.roi_at 60 10 100 40 in
  Z.of_nat (length (roi_mask_of Reference.flooded r)) = 30 /\
  Forall (fun row => Z.of_nat (length row) = 0)
         (roi_mask_of Reference.flooded r) /\
  pixel_at (roi_mask_of Reference.flooded r) 0 0 = None /\
  concat (roi_mask_of Reference.flooded r) = [] /\
  total_area (V := Reference.vision) default_config
    (roi_mask_of Reference.flooded r) = 0%Q /\
  raw_motion (V := Reference.vision) default_config Reference.flooded r = false.
Proof.
  intros r.
  assert (Hrows : Forall (fun row => Z.of_nat (length row) = 50)
                         Reference.flooded).
  { apply Forall_forall. intros row Hin.
    unfold Reference.flooded, Reference.paint, Reference.blank in Hin.
    apply elem_of_lookup_imap in Hin as (y & row0 & -> & Hrow0).
    rewrite length_imap.
    apply lookup_replicate in Hrow0 as [-> _].
    rewrite length_replicate. reflexivity. }
  destruct (crop_outside_frame (V := Reference.vision) default_config
              Reference.flooded 50 50 r 60 10 100 40
              reference_finder_empty eq_refl Hrows eq_refl)
    as (Hheight & Hwidth & Hpixel & Hout); try (vm_compute; discriminate).
  split; [exact Hheight|]. split; [exact Hwidth|].
  split; [rewrite Hpixel; vm_compute; reflexivity|].
  destruct Hout as (Hempty & Harea & Hraw); [left; lia|].
  split; [exact Hempty|]. split; [exact Harea|].
  rewrite Hraw. reflexivity.
Defined.

(** A malformed file and a failing write are both answered with [False];
    so is a missing file, with nothing changed. *)
Lemma persistence_never_raises_witness :
  let malformed := {| det := Reference.fresh default_config;
                      disk := set_node "config/rois.json" (File Garbage)
                                Reference.empty_disk |} in
  let failing := {| det := Reference.fresh default_config;
                    disk := {| nodes := ∅; read_only := ∅;
                               short_write := {["config/rois.json"%string]} |} |} in
  load_rois None malformed = (Returns false, malformed) /\
  fst (save_rois None failing) = Returns false /\
  load_rois None Reference.world0 = (Returns false, Reference.world0).
Proof.
  intros malformed failing.
  destruct (persistence_never_raises malformed None) as (_ & _ & _ & Hload & _).
  destruct (persistence_never_raises failing None) as (_ & _ & Hsave & _).
  destruct (persistence_never_raises Reference.world0 None) as (_ & _ & _ & _ & Habsent).
  split; [|split].
  - apply (Hload JSONDecodeError malformed). vm_compute. reflexivity.
  - rewrite (Hsave OSError (Reference.after (save_rois_body None) failing)).
    + reflexivity.
    + vm_compute. reflexivity.
  - apply Habsent. vm_compute. reflexivity.
Defined.

(** * Further properties of the store, the pipeline and their callers *)

Section StoreEdits.
Context {V : Vision}.

(** ** [delete_roi] *)

Lemma delete_roi_unfold (i : Z) (w : world) :
  delete_roi i w =
  match remove_first i (rois (det w)) with
  | Some l =>
      (Returns true,
       {| det := set_motion_history (delete i (motion_history (det w)))
                   (set_rois l (det w));
          disk := disk w |})
  | None => (Returns false, w)
  end.
Proof.
  destruct w as [self d]. unfold delete_roi, delete_roi_body. run_py.
  destruct (remove_first i (rois self)); reflexivity.
Qed.

Lemma remove_first_none (i : Z) (l : list roi) :
  i ∉ map roi_id l -> remove_first i l = None.
Proof.
  induction l as [|r rest IH]; simpl; intros Hnot; [reflexivity|].
  apply not_elem_of_cons in Hnot as [Hne Hrest].
  destruct (Z.eqb_spec (roi_id r) i); [congruence|].
  rewrite (IH Hrest). reflexivity.
Qed.

Lemma remove_first_some (i : Z) (l : list roi) :
  i ∈ map roi_id l ->
  exists l1 r l2,
    l = l1 ++ r :: l2 /\ roi_id r = i /\ (i ∉ map roi_id l1) /\
    remove_first i l = Some (l1 ++ l2).
Proof.
  induction l as [|r rest IH]; simpl; intros Hin.
  - apply elem_of_nil in Hin. contradiction.
  - destruct (Z.eqb_spec (roi_id r) i) as [Heq|Hne].
    + exists [], r, rest. simpl. repeat split; auto. apply not_elem_of_nil.
    + apply elem_of_cons in Hin as [Heq|Hin]; [congruence|].
      destruct (IH Hin) as (l1 & r0 & l2 & -> & Hid & Hfresh & Hrem).
      exists (r :: l1), r0, l2. rewrite Hrem. simpl. repeat split; auto.
      apply not_elem_of_cons. split; [congruence | exact Hfresh].
Qed.

(** Deleting an id that no ROI carries answers [False] and changes
    nothing. *)
Theorem delete_roi_absent (i : Z) (w : world) :
  i ∉ map roi_id (rois (det w)) ->
  delete_roi i w = (Returns false, w).
Proof.
  intros Hnot. rewrite delete_roi_unfold, (remove_first_none i _ Hnot).
  reflexivity.
Qed.

(** Deleting an id that some ROI carries answers [True], removes the first
    ROI with that id and no other, keeps the order of the rest, drops the
    window stored under that id and keeps every other window. *)
Theorem delete_roi_present (i : Z) (w : world) :
  i ∈ map roi_id (rois (det w)) ->
  exists l1 r l2 w',
    delete_roi i w = (Returns true, w') /\
    rois (det w) = l1 ++ r :: l2 /\ roi_id r = i /\ (i ∉ map roi_id l1) /\
    rois (det w') = l1 ++ l2 /\
    motion_history (det w') !! i = None /\
    (forall k, k <> i ->
       motion_history (det w') !! k = motion_history (det w) !! k) /\
    disk w' = disk w /\ config (det w') = config (det w).
Proof.
  intros Hin.
  destruct (remove_first_some i _ Hin) as (l1 & r & l2 & Hsplit & Hid & Hfresh & Hrem).
  exists l1, r, l2. eexists. rewrite delete_roi_unfold, Hrem.
  split; [reflexivity|]. simpl. repeat split; auto.
  - apply lookup_delete_eq.
  - intros k Hk. apply lookup_delete_ne. congruence.
Qed.

(** A successful [add_roi] followed by [delete_roi] of the id it assigned
    gives back the ROI list as it was. *)
Theorem add_then_delete (w w1 : world) (x1 y1 x2 y2 : Z) :
  add_roi x1 y1 x2 y2 w = (Returns true, w1) ->
  let new_id := py_max_default0 (map roi_id (rois (det w))) + 1 in
  exists w2,
    delete_roi new_id w1 = (Returns true, w2) /\
    rois (det w2) = rois (det w) /\
    motion_history (det w2) = delete new_id (motion_history (det w)) /\
    disk w2 = disk w.
Proof.
  intros Hadd new_id.
  pose proof (py_max_default0_upper (map roi_id (rois (det w)))) as Hup.
  assert (Hfresh : new_id ∉ map roi_id (rois (det w))).
  { intros Hin. rewrite Forall_forall in Hup. specialize (Hup _ Hin).
    unfold new_id in Hup. lia. }
  rewrite add_roi_unfold in Hadd.
  destruct (roi_count w >=? capacity w); [discriminate|].
  injection Hadd as <-. eexists. rewrite delete_roi_unfold. simpl.
  assert (Hrem : forall l r, roi_id r = new_id -> new_id ∉ map roi_id l ->
                   remove_first new_id (l ++ [r]) = Some l).
  { induction l as [|r0 l IH]; simpl; intros r Hr Hl.
    - rewrite Hr, Z.eqb_refl. reflexivity.
    - apply not_elem_of_cons in Hl as [Hne Hl].
      destruct (Z.eqb_spec (roi_id r0) new_id); [congruence|].
      rewrite (IH r Hr Hl). reflexivity. }
  rewrite Hrem by (auto; reflexivity). repeat split.
Qed.

End StoreEdits.

Section CallSequences.
Context {V : Vision}.

(** ** Invariants kept by every call but [load_rois] *)

Lemma ids_increasing_lower (a b : Z) (l : list roi) :
  a <= b -> ids_increasing b l -> ids_increasing a l.
Proof. destruct l as [|r rest]; simpl; [auto|]. intros Hab [Hb Hrest]. split; [lia | exact Hrest]. Qed.

Lemma ids_increasing_above (a : Z) (l : list roi) :
  ids_increasing a l -> Forall (fun r => a < roi_id r) l.
Proof.
  revert a. induction l as [|r rest IH]; simpl; intros a Hinc; [constructor|].
  destruct Hinc as [Ha Hrest]. constructor; [exact Ha|].
  eapply Forall_impl; [apply (IH _ Hrest)|]. simpl. intros r0 Hr0. lia.
Qed.

Lemma ids_increasing_snoc (a : Z) (l : list roi) (r : roi) :
  ids_increasing a l -> a < roi_id r ->
  Forall (fun r0 => roi_id r0 < roi_id r) l ->
  ids_increasing a (l ++ [r]).
Proof.
  revert a. induction l as [|r0 rest IH]; simpl; intros a Hinc Ha Hall.
  - auto.
  - destruct Hinc as [Ha0 Hrest]. apply Forall_cons in Hall as [Hr0 Hall].
    split; [exact Ha0|]. apply IH; auto.
Qed.

Lemma ids_increasing_remove (a : Z) (l1 l2 : list roi) (r : roi) :
  ids_increasing a (l1 ++ r :: l2) -> ids_increasing a (l1 ++ l2).
Proof.
  revert a. induction l1 as [|r0 rest IH]; simpl; intros a Hinc.
  - destruct Hinc as [Ha Hrest]. apply (ids_increasing_lower _ (roi_id r)); [lia | exact Hrest].
  - destruct Hinc as [Ha Hrest]. split; [exact Ha | apply IH, Hrest].
Qed.

Lemma ids_increasing_same_ids (a : Z) (l l' : list roi) :
  map roi_id l' = map roi_id l -> ids_increasing a l -> ids_increasing a l'.
Proof.
  revert a l'. induction l as [|r rest IH]; intros a [|r' rest'] Hids; simpl;
    try discriminate; auto.
  simpl in Hids. injection Hids as Hid Hrest. rewrite Hid.
  intros [Ha Hinc]. split; [exact Ha | apply IH; assumption].
Qed.

Lemma ids_increasing_NoDup (a : Z) (l : list roi) :
  ids_increasing a l -> NoDup (map roi_id l).
Proof.
  revert a. induction l as [|r rest IH]; simpl; intros a Hinc; [constructor|].
  destruct Hinc as [Ha Hrest]. constructor; [|apply (IH _ Hrest)].
  intros Hin. apply ids_increasing_above in Hrest.
  rewrite Forall_forall in Hrest.
  apply list_elem_of_fmap in Hin as (r0 & Heq & Hr0).
  specialize (Hrest _ Hr0). simpl in Hrest. lia.
Qed.

Lemma update_history_bounded (n : Z) (h : list bool) (raw : bool) :
  0 <= n -> Z.of_nat (length h) <= n ->
  Z.of_nat (length (update_history n h raw)) <= n.
Proof.
  intros Hn Hh. unfold update_history.
  destruct (Z.ltb_spec n (Z.of_nat (length (h ++ [raw])))) as [Hover|Hfits].
  - destruct h as [|b h]; simpl in *; [lia|]. rewrite length_app. simpl. lia.
  - exact Hfits.
Qed.

(** What the loop leaves in the history: old windows of other ids, and
    bounded windows under the ids it visited. *)
Lemma roi_loop_history cfg fg_mask rain clock l : forall i history k h,
  0 <= motion_smoothing_frames cfg ->
  (forall k0 h0, history !! k0 = Some h0 ->
                 Z.of_nat (length h0) <= motion_smoothing_frames cfg) ->
  (roi_loop cfg fg_mask rain clock i history l).1.1 !! k = Some h ->
  (history !! k = Some h \/ k ∈ map roi_id l) /\
  Z.of_nat (length h) <= motion_smoothing_frames cfg.
Proof.
  induction l as [|r rest IH]; intros i history k h Hn Hbound; simpl.
  - intros Hk. split; [left; exact Hk | apply (Hbound _ _ Hk)].
  - specialize (IH (S i) (<[roi_id r := roi_window cfg fg_mask history r]> history) k h Hn).
    destruct (roi_loop cfg fg_mask rain clock (S i) _ rest) as [[h2 rest'] any].
    simpl in *. intros Hk.
    destruct IH as [Hwhere Hlen]; [|exact Hk|].
    + intros k0 h0 Hk0. destruct (decide (roi_id r = k0)) as [<-|Hne].
      * rewrite lookup_insert_eq in Hk0. injection Hk0 as <-.
        unfold roi_window. apply update_history_bounded; [exact Hn|].
        destruct (history !! roi_id r) as [h1|] eqn:Hold; simpl;
          [apply (Hbound _ _ Hold) | lia].
      * rewrite lookup_insert_ne in Hk0 by exact Hne. apply (Hbound _ _ Hk0).
    + split; [|exact Hlen].
      destruct Hwhere as [Hins|Hin].
      * destruct (decide (roi_id r = k)) as [<-|Hne].
        -- right. apply elem_of_cons. left. reflexivity.
        -- rewrite lookup_insert_ne in Hins by exact Hne. left. exact Hins.
      * right. apply elem_of_cons. right. exact Hin.
Qed.

Lemma rois_empty_or_not (self : MotionDetector) :
  rois self = [] \/ rois self <> [].
Proof. destruct (rois self); [left | right]; congruence. Qed.

(** The state after [process_frame] is the state after
    [detect_motion_in_rois]. *)
Lemma process_frame_state fr clock (self : MotionDetector) :
  (process_frame fr clock self).2 = (detect_motion_in_rois fr clock self).2.
Proof.
  unfold process_frame, detect_motion_in_rois.
  destruct (rois self) as [|r rest]; [reflexivity|].
  destruct (foreground (background_subtractor self) fr) as [model fg_mask].
  destruct (roi_loop _ _ _ _ _ _ _) as [[h l] any]. reflexivity.
Qed.

Lemma detect_motion_in_rois_empty fr clock (self : MotionDetector) :
  rois self = [] -> detect_motion_in_rois fr clock self = (false, self).
Proof. intros Hempty. unfold detect_motion_in_rois. rewrite Hempty. reflexivity. Qed.

Lemma process_frame_ids fr clock (self : MotionDetector) :
  map roi_id (rois (process_frame fr clock self).2) = map roi_id (rois self) /\
  config (process_frame fr clock self).2 = config self.
Proof.
  rewrite process_frame_state.
  destruct (rois_empty_or_not self) as [Hempty|Hne].
  - rewrite (detect_motion_in_rois_empty _ _ _ Hempty). split; reflexivity.
  - rewrite (detect_motion_in_rois_unfold fr clock self Hne).
    cbv zeta. cbn [fst snd rois config]. split; [apply roi_loop_ids | reflexivity].
Qed.

Lemma process_frame_tidy fr clock (self : MotionDetector) :
  0 <= motion_smoothing_frames (config self) ->
  history_tidy self -> history_tidy (process_frame fr clock self).2.
Proof.
  intros Hn Htidy.
  pose proof (process_frame_ids fr clock self) as [Hids Hcfg].
  intros k h Hk. rewrite Hids, Hcfg. revert Hk.
  rewrite process_frame_state.
  destruct (rois_empty_or_not self) as [Hempty|Hne].
  - rewrite (detect_motion_in_rois_empty _ _ _ Hempty). apply Htidy.
  - rewrite (detect_motion_in_rois_unfold fr clock self Hne).
    cbv zeta. cbn [fst snd motion_history]. intros Hk.
    apply roi_loop_history in Hk as [[Hold|Hin] Hlen].
    + apply (Htidy _ _ Hold).
    + split; [exact Hin | exact Hlen].
    + exact Hn.
    + intros k0 h0 Hk0. apply (Htidy _ _ Hk0).
Qed.

Lemma save_rois_det (filename : option string) (w : world) :
  det (save_rois filename w).2 = det w.
Proof.
  rewrite save_rois_unfold. cbv zeta.
  destruct (decide (_ ∈ read_only (disk w))); [reflexivity|].
  destruct (dirs_made _ (disk w)) as [d1 [e|]]; simpl; [reflexivity|].
  destruct (nodes (disk w) !! resolve filename (det w)) as [[| |c]|];
    try reflexivity;
    destruct (decide (_ ∈ short_write (disk w))); reflexivity.
Qed.

Lemma run_call_config (c : call) (w : world) :
  capacity (run_call c w) = capacity w /\
  motion_smoothing_frames (config (det (run_call c w)))
  = motion_smoothing_frames (config (det w)).
Proof.
  unfold capacity. destruct c as [x1 y1 x2 y2|i| |filename|fr clock]; simpl.
  - rewrite add_roi_unfold. destruct (roi_count w >=? capacity w); split; reflexivity.
  - rewrite delete_roi_unfold. destruct (remove_first i (rois (det w))); split; reflexivity.
  - split; reflexivity.
  - rewrite save_rois_det. split; reflexivity.
  - destruct (process_frame_ids fr clock (det w)) as [_ ->]. split; reflexivity.
Qed.

Lemma run_call_ids (c : call) (w : world) :
  roi_count w <= capacity w -> ids_increasing 0 (rois (det w)) ->
  roi_count (run_call c w) <= capacity w /\
  ids_increasing 0 (rois (det (run_call c w))).
Proof.
  intros Hcap Hids.
  destruct c as [x1 y1 x2 y2|i| |filename|fr clock]; simpl.
  - split; [apply add_roi_bounded, Hcap|].
    rewrite add_roi_unfold. destruct (roi_count w >=? capacity w); simpl; [auto|].
    apply ids_increasing_snoc; simpl; [exact Hids| |].
    + pose proof (ids_increasing_above _ _ Hids) as Hpos.
      destruct (rois (det w)) as [|r rest]; simpl; [lia|].
      apply Forall_cons in Hpos as [Hr _].
      pose proof (py_max_default0_upper (map roi_id (r :: rest))) as Hup.
      apply Forall_cons in Hup as [Hup _]. simpl in Hup. lia.
    + pose proof (py_max_default0_upper (map roi_id (rois (det w)))) as Hup.
      rewrite Forall_map in Hup.
      eapply Forall_impl; [exact Hup|]. simpl. intros r0 Hr0. lia.
  - rewrite delete_roi_unfold.
    destruct (remove_first i (rois (det w))) as [l|] eqn:Hrem; simpl; [|auto].
    assert (Hin : i ∈ map roi_id (rois (det w))).
    { destruct (decide (i ∈ map roi_id (rois (det w)))) as [Hin|Hnot]; [exact Hin|].
      rewrite (remove_first_none i _ Hnot) in Hrem. discriminate. }
    destruct (remove_first_some i _ Hin) as (l1 & r & l2 & Hsplit & Hid & Hfresh & Hrem').
    rewrite Hrem in Hrem'. injection Hrem' as ->.
    unfold roi_count in *. simpl. rewrite Hsplit in Hcap, Hids.
    split; [rewrite length_app in *; simpl in *; lia|].
    apply (ids_increasing_remove _ _ _ _ Hids).
  - unfold roi_count, capacity in *. simpl. split; [|exact I].
    pose proof (Nat2Z.is_nonneg (length (rois (det w)))). lia.
  - unfold roi_count. rewrite save_rois_det. auto.
  - unfold roi_count. simpl.
    destruct (process_frame_ids fr clock (det w)) as [Hsame _]. split.
    + rewrite <- (length_map roi_id), Hsame, length_map. exact Hcap.
    + apply (ids_increasing_same_ids _ (rois (det w))); [exact Hsame | exact Hids].
Qed.

Lemma run_call_tidy (c : call) (w : world) :
  0 <= motion_smoothing_frames (config (det w)) ->
  history_tidy (det w) -> history_tidy (det (run_call c w)).
Proof.
  intros Hn Htidy.
  destruct c as [x1 y1 x2 y2|i| |filename|fr clock]; simpl.
  - rewrite add_roi_unfold. destruct (roi_count w >=? capacity w); simpl; [auto|].
    intros k h Hk. destruct (Htidy k h Hk) as [Hin Hlen]. split; [|exact Hlen].
    simpl. rewrite map_app. apply elem_of_app. left. exact Hin.
  - rewrite delete_roi_unfold.
    destruct (remove_first i (rois (det w))) as [l|] eqn:Hrem; simpl; [|auto].
    assert (Hin : i ∈ map roi_id (rois (det w))).
    { destruct (decide (i ∈ map roi_id (rois (det w)))) as [Hin|Hnot]; [exact Hin|].
      rewrite (remove_first_none i _ Hnot) in Hrem. discriminate. }
    destruct (remove_first_some i _ Hin) as (l1 & r & l2 & Hsplit & Hid & Hfresh & Hrem').
    rewrite Hrem in Hrem'. injection Hrem' as ->.
    intros k h Hk. simpl in Hk.
    destruct (decide (k = i)) as [->|Hne]; [rewrite lookup_delete_eq in Hk; discriminate|].
    rewrite lookup_delete_ne in Hk by congruence.
    destruct (Htidy k h Hk) as [Hk_in Hlen]. split; [|exact Hlen]. simpl.
    rewrite Hsplit in Hk_in. rewrite map_app in *. simpl in Hk_in.
    apply elem_of_app in Hk_in as [Hl1|Hl2]; apply elem_of_app; [left; exact Hl1|].
    apply elem_of_cons in Hl2 as [Heq|Hl2]; [congruence | right; exact Hl2].
  - intros k h Hk. simpl in Hk. rewrite lookup_empty in Hk. discriminate.
  - rewrite save_rois_det. exact Htidy.
  - apply process_frame_tidy; assumption.
Qed.

(** Starting from a store within capacity whose ids are positive and
    strictly increasing, after any sequence of [add_roi], [delete_roi],
    [clear_rois], [save_rois] and [process_frame] calls the store is still
    within capacity and its ids are still positive, strictly increasing
    and therefore pairwise distinct. *)
Theorem calls_keep_ids_sorted (cs : list call) (w : world) :
  roi_count w <= capacity w ->
  ids_increasing 0 (rois (det w)) ->
  roi_count (run_calls cs w) <= capacity w /\
  ids_increasing 0 (rois (det (run_calls cs w))) /\
  NoDup (map roi_id (rois (det (run_calls cs w)))).
Proof.
  revert w. induction cs as [|c rest IH]; intros w Hcap Hids; simpl.
  - repeat split; [exact Hcap | exact Hids | apply (ids_increasing_NoDup 0), Hids].
  - destruct (run_call_ids c w Hcap Hids) as [Hcap' Hids'].
    destruct (run_call_config c w) as [Hsame _].
    rewrite <- Hsame in Hcap'.
    destruct (IH (run_call c w) Hcap' Hids') as (H1 & H2 & H3).
    rewrite Hsame in H1. repeat split; assumption.
Qed.

(** Under the same calls the motion history stays tidy: every window
    belongs to an ROI that is still configured, and no window holds more
    than [motion_smoothing_frames] entries.  In particular an id that is
    handed out again never inherits a window. *)
Theorem calls_keep_history_tidy (cs : list call) (w : world) :
  0 <= motion_smoothing_frames (config (det w)) ->
  history_tidy (det w) ->
  forall k h,
    motion_history (det (run_calls cs w)) !! k = Some h ->
    k ∈ map roi_id (rois (det (run_calls cs w))) /\
    Z.of_nat (length h) <= motion_smoothing_frames (config (det w)).
Proof.
  revert w. induction cs as [|c rest IH]; intros w Hn Htidy k h Hk; simpl in *.
  - apply (Htidy k h Hk).
  - destruct (run_call_config c w) as [_ Hcfg].
    rewrite <- Hcfg. apply IH; [rewrite Hcfg; exact Hn | | exact Hk].
    apply run_call_tidy; assumption.
Qed.

End CallSequences.

Section FrameFacts.
Context {V : Vision}.

(** ** What a frame changes *)

Lemma roi_loop_identities cfg fg_mask rain clock l : forall i history,
  identities (roi_loop cfg fg_mask rain clock i history l).1.2 = identities l.
Proof.
  induction l as [|r rest IH]; intros i history; simpl; [reflexivity|].
  specialize (IH (S i) (<[roi_id r := roi_window cfg fg_mask history r]> history)).
  destruct (roi_loop cfg fg_mask rain clock (S i) _ rest) as [[h2 rest'] any].
  simpl in *. f_equal. exact IH.
Qed.

Lemma process_frame_same_identities fr clock (self : MotionDetector) :
  identities (rois (process_frame fr clock self).2) = identities (rois self).
Proof.
  rewrite process_frame_state.
  destruct (rois_empty_or_not self) as [Hempty|Hne].
  - rewrite (detect_motion_in_rois_empty _ _ _ Hempty). reflexivity.
  - rewrite (detect_motion_in_rois_unfold fr clock self Hne).
    cbv zeta. cbn [fst snd rois]. apply roi_loop_identities.
Qed.

Lemma process_frame_same_length fr clock (self : MotionDetector) :
  length (rois (process_frame fr clock self).2) = length (rois self).
Proof.
  pose proof (process_frame_same_identities fr clock self) as Hsame.
  unfold identities in Hsame.
  rewrite <- (length_map (fun r => (roi_id r, coords r))), Hsame.
  apply length_map.
Qed.

(** A frame never adds, drops, reorders or moves an ROI and never touches
    the configuration: only the motion flags, the timestamps, the history,
    the background model and the rain flag change. *)
Theorem process_frame_keeps_identities (fr : frame) (clock : nat -> timestamp)
    (self : MotionDetector) :
  let self' := (process_frame fr clock self).2 in
  identities (rois self') = identities (rois self) /\
  length (rois self') = length (rois self) /\
  config self' = config self /\
  last_notification_time self' = last_notification_time self.
Proof.
  cbv zeta. split; [apply process_frame_same_identities|].
  split; [apply process_frame_same_length|].
  rewrite process_frame_state.
  destruct (rois_empty_or_not self) as [Hempty|Hne].
  - rewrite (detect_motion_in_rois_empty _ _ _ Hempty). split; reflexivity.
  - rewrite (detect_motion_in_rois_unfold fr clock self Hne).
    split; reflexivity.
Qed.

Lemma process_frame_result_motion (fr : frame) (clock : nat -> timestamp)
    (self : MotionDetector) :
  result_motion_detected (process_frame fr clock self).1
  = existsb motion_detected (rois (process_frame fr clock self).2).
Proof.
  rewrite process_frame_state.
  destruct (rois_empty_or_not self) as [Hempty|Hne].
  - unfold process_frame. rewrite (detect_motion_in_rois_empty _ _ _ Hempty).
    cbn [fst snd]. rewrite Hempty. reflexivity.
  - assert (Hfst : result_motion_detected (process_frame fr clock self).1
                   = (detect_motion_in_rois fr clock self).1).
    { unfold process_frame. destruct (rois self); [congruence|].
      destruct (detect_motion_in_rois fr clock self). reflexivity. }
    rewrite Hfst, (detect_motion_in_rois_unfold fr clock self Hne).
    cbv zeta. cbn [fst snd rois]. apply roi_loop_gate.
Qed.

(** The [motion_detected] entry of the result is the disjunction of the
    ROI flags as the frame leaves them. *)
Theorem process_frame_motion_is_any_roi (fr : frame) (clock : nat -> timestamp)
    (self : MotionDetector) :
  result_motion_detected (process_frame fr clock self).1
  = existsb motion_detected (rois (process_frame fr clock self).2).
Proof. apply process_frame_result_motion. Qed.

Lemma detect_lookup fr clock (self : MotionDetector) (i : nat) (r : roi) :
  rois self !! i = Some r ->
  let fg_mask := (foreground (background_subtractor self) fr).2 in
  let rain := rain_pattern (config self) fg_mask in
  rois (process_frame fr clock self).2 !! i =
  Some (roi_step (config self) fg_mask rain (clock i)
          (roi_loop (config self) fg_mask rain clock 0 (motion_history self)
             (take i (rois self))).1.1 r).2.
Proof.
  intros Hi. cbv zeta. rewrite process_frame_state.
  assert (Hne : rois self <> []) by (intros Hempty; rewrite Hempty in Hi; discriminate).
  rewrite (detect_motion_in_rois_unfold fr clock self Hne).
  cbv zeta. cbn [fst snd rois].
  apply (roi_loop_lookup (config self) _ _ clock (rois self) 0%nat
           (motion_history self) i r Hi).
Qed.

(** [last_motion_time] of an ROI changes only in a frame that flags it,
    and then to the clock reading taken for it in that frame. *)
Theorem last_motion_time_rule (fr : frame) (clock : nat -> timestamp)
    (self : MotionDetector) (i : nat) (r : roi) :
  rois self !! i = Some r ->
  exists r',
    rois (process_frame fr clock self).2 !! i = Some r' /\
    last_motion_time r' =
    if motion_detected r' then Some (clock i) else last_motion_time r.
Proof.
  intros Hi. eexists. split; [apply (detect_lookup fr clock self i r Hi)|].
  reflexivity.
Qed.

Lemma NoDup_take_fresh (l : list roi) (i : nat) (r : roi) :
  NoDup (map roi_id l) -> l !! i = Some r ->
  roi_id r ∉ map roi_id (take i l).
Proof.
  intros Hnd Hi Hin.
  apply list_elem_of_fmap in Hin as (r0 & Heq & Hr0).
  apply elem_of_take in Hr0 as (j & Hj & Hlt).
  assert (Hsame : i = j).
  { apply (NoDup_lookup (map roi_id l) i j (roi_id r) Hnd).
    - rewrite list_lookup_fmap, Hi. reflexivity.
    - rewrite list_lookup_fmap, Hj. simpl. congruence. }
  lia.
Qed.

(** Warm-up: an ROI whose window, with this frame's entry added, is still
    shorter than [motion_smoothing_frames] is not flagged, whatever the
    mask shows.  (Ids pairwise distinct.) *)
Theorem short_window_not_flagged (fr : frame) (clock : nat -> timestamp)
    (self : MotionDetector) (i : nat) (r : roi) :
  NoDup (map roi_id (rois self)) ->
  rois self !! i = Some r ->
  Z.of_nat (length (default [] (motion_history self !! roi_id r))) + 1
    < motion_smoothing_frames (config self) ->
  exists r',
    rois (process_frame fr clock self).2 !! i = Some r' /\
    roi_id r' = roi_id r /\ motion_detected r' = false.
Proof.
  intros Hnd Hi Hshort. eexists.
  split; [apply (detect_lookup fr clock self i r Hi)|].
  split; [reflexivity|]. unfold roi_step. cbv zeta. cbn [snd motion_detected].
  unfold roi_window at 1.
  rewrite (roi_loop_history_other _ _ _ _ (take i (rois self)) 0%nat
             (motion_history self) (roi_id r) (NoDup_take_fresh _ _ _ Hnd Hi)).
  set (old := default [] (motion_history self !! roi_id r)) in *.
  set (raw := raw_motion _ _ _).
  assert (Hwin : update_history (motion_smoothing_frames (config self)) old raw
                 = old ++ [raw]).
  { unfold update_history.
    destruct (Z.ltb_spec (motion_smoothing_frames (config self))
                (Z.of_nat (length (old ++ [raw])))) as [Hover|_]; [|reflexivity].
    rewrite length_app in Hover. simpl in Hover. lia. }
  rewrite Hwin. unfold consistent_motion.
  replace (motion_smoothing_frames (config self) <=? Z.of_nat (length (old ++ [raw])))
    with false; [reflexivity|].
  symmetry. apply Z.leb_gt. rewrite length_app. simpl. lia.
Qed.

(** ** Raw decision *)

Lemma py_sum_from (areas : list Q) : forall acc : Q,
  Forall (fun a => (0 <= a)%Q) areas ->
  (acc <= fold_left Qplus areas acc)%Q.
Proof.
  induction areas as [|a rest IH]; intros acc Hall; simpl; [apply Qle_refl|].
  apply Forall_cons in Hall as [Ha Hrest].
  eapply Qle_trans; [|apply (IH _ Hrest)].
  rewrite <- (Qplus_0_r acc) at 1. apply Qplus_le_compat; [apply Qle_refl | exact Ha].
Qed.

(** When [0 <= motion_threshold < min_contour_area], as in the default
    configuration, the raw decision for an ROI is positive exactly when its
    crop holds at least one contour of area [min_contour_area] or more: the
    summed-area threshold never decides. *)
Theorem raw_motion_iff_large_contour (cfg : DetectorConfig) (fg_mask : mask)
    (r : roi) :
  0 <= motion_threshold cfg -> motion_threshold cfg < min_contour_area cfg ->
  (raw_motion cfg fg_mask r = true <->
   large_contours cfg (roi_mask_of fg_mask r) <> []).
Proof.
  intros Hthr Hmin. unfold raw_motion, total_area.
  assert (Hlarge : Forall (fun c => (inject_Z (min_contour_area cfg) <= contourArea c)%Q)
                     (large_contours cfg (roi_mask_of fg_mask r))).
  { apply Forall_forall. intros c Hc. unfold large_contours in Hc.
    apply list_elem_of_filter in Hc as [Hc _].
    apply Is_true_true in Hc. apply Qle_bool_iff in Hc. exact Hc. }
  destruct (large_contours cfg (roi_mask_of fg_mask r)) as [|c rest].
  - change (py_sum (map contourArea [])) with 0%Q.
    rewrite (area_gt_zero _ Hthr). split; [discriminate | congruence].
  - split; [discriminate|]. intros _.
    apply Forall_cons in Hlarge as [Hc Hrest].
    assert (Hmin0 : (0 <= inject_Z (min_contour_area cfg))%Q).
    { rewrite <- (Zle_Qle 0). lia. }
    assert (Hsum : (inject_Z (min_contour_area cfg)
                    <= py_sum (map contourArea (c :: rest)))%Q).
    { unfold py_sum. simpl.
      eapply Qle_trans; [|apply py_sum_from].
      - rewrite Qplus_0_l. exact Hc.
      - apply Forall_map. eapply Forall_impl; [exact Hrest|].
        simpl. intros c0 Hc0. eapply Qle_trans; [exact Hmin0 | exact Hc0]. }
    unfold area_gt. apply negb_true_iff.
    destruct (Qle_bool _ _) eqn:Hle; [|reflexivity].
    apply Qle_bool_iff in Hle. exfalso.
    apply (Qlt_not_le (inject_Z (motion_threshold cfg))
             (inject_Z (min_contour_area cfg))).
    + rewrite <- Zlt_Qlt. exact Hmin.
    + eapply Qle_trans; [exact Hsum | exact Hle].
Qed.

End FrameFacts.

Section WindowFacts.
Context {V : Vision}.

(** ** The sliding window *)

(** Fed one raw decision after the other, a window that starts with at
    most [n] entries always holds the last [n] decisions seen (all of them
    while fewer than [n] were seen): first in, first out. *)
Theorem window_is_last_n (n : Z) (raws : list bool) : forall hist : list bool,
  0 <= n -> Z.of_nat (length hist) <= n ->
  fold_left (update_history n) raws hist
  = drop (length (hist ++ raws) - Z.to_nat n) (hist ++ raws).
Proof.
  induction raws as [|raw rest IH]; intros hist Hn Hlen; simpl.
  - rewrite app_nil_r. replace (length hist - Z.to_nat n)%nat with 0%nat by lia.
    reflexivity.
  - rewrite IH; [|exact Hn|apply update_history_bounded; assumption].
    unfold update_history.
    destruct (Z.ltb_spec n (Z.of_nat (length (hist ++ [raw])))) as [Hover|Hfits].
    + rewrite length_app in Hover. simpl in Hover.
      destruct hist as [|b hist0]; simpl in *.
      * assert (n = 0) as -> by lia. simpl. rewrite !Nat.sub_0_r.
        rewrite drop_all. reflexivity.
      * rewrite <- app_assoc. simpl.
        rewrite !length_app. simpl.
        replace (S (length hist0 + S (length rest)) - Z.to_nat n)%nat
          with (S (length hist0 + S (length rest) - Z.to_nat n)) by lia.
        reflexivity.
    + rewrite <- app_assoc. reflexivity.
Qed.

(** A frame writes only the windows of the configured ROIs. *)
Theorem process_frame_other_windows (fr : frame) (clock : nat -> timestamp)
    (self : MotionDetector) (k : Z) :
  k ∉ map roi_id (rois self) ->
  motion_history (process_frame fr clock self).2 !! k
  = motion_history self !! k.
Proof.
  intros Hk. rewrite process_frame_state.
  destruct (rois_empty_or_not self) as [Hempty|Hne].
  - rewrite (detect_motion_in_rois_empty _ _ _ Hempty). reflexivity.
  - rewrite (detect_motion_in_rois_unfold fr clock self Hne).
    cbv zeta. cbn [fst snd motion_history].
    apply roi_loop_history_other, Hk.
Qed.

End WindowFacts.

Section PersistenceFacts.
Context {V : Vision}.

(** ** [save_rois] and [load_rois], case by case *)

Lemma save_rois_writable (filename : option string) (w : world) :
  writable (resolve filename (det w)) (disk w) ->
  save_rois filename w =
  (Returns true,
   {| det := det w;
      disk := set_node (resolve filename (det w)) (File (Doc (rois (det w))))
                (dirs_made (parent_dirs (resolve filename (det w))) (disk w)).1 |}).
Proof.
  intros (Hro & Hsw & Hclear & Hdir & Hprot). rewrite save_rois_unfold. cbv zeta.
  destruct (decide (resolve filename (det w) ∈ read_only (disk w))); [contradiction|].
  destruct (decide (resolve filename (det w) ∈ short_write (disk w))); [contradiction|].
  rewrite (dirs_made_clear _ _ Hclear).
  destruct (nodes (disk w) !! resolve filename (det w)) as [[| |c]|];
    try reflexivity; congruence.
Qed.

(** A successful [save_rois] leaves the detector as it was, the file
    holding the ROI list, and every directory above the file present as a
    directory: the missing ones have been created by
    [Path(filename).parent.mkdir(parents=True, exist_ok=True)]. *)
Theorem save_rois_creates_parents (filename : option string) (w w' : world) :
  save_rois filename w = (Returns true, w') ->
  det w' = det w /\
  nodes (disk w') !! resolve filename (det w)
    = Some (File (Doc (rois (det w)))) /\
  Forall (fun q => nodes (disk w') !! q = Some Directory)
    (parent_dirs (resolve filename (det w))).
Proof.
  intros Hsave.
  destruct (save_rois_success filename w w' Hsave) as [Hdet Hfile].
  split; [exact Hdet|]. split; [exact Hfile|].
  revert Hsave. rewrite save_rois_unfold. cbv zeta.
  set (p := resolve filename (det w)).
  pose proof (dirs_made_creates (parent_dirs p) (disk w)) as Hmade.
  pose proof (parent_dirs_not_self p) as Hself.
  destruct (decide (p ∈ read_only (disk w))); [discriminate|].
  destruct (dirs_made (parent_dirs p) (disk w)) as [d1 [e|]]; simpl in *;
    [discriminate|].
  specialize (Hmade eq_refl).
  assert (Hgoal : forall c,
    Forall (fun q => nodes (set_node p c d1) !! q = Some Directory)
      (parent_dirs p)).
  { intros c. apply Forall_forall. intros q Hq.
    rewrite Forall_forall in Hmade. simpl.
    rewrite lookup_insert_ne; [apply Hmade; exact Hq|].
    intros ->. apply Hself. exact Hq. }
  destruct (nodes (disk w) !! p) as [[| |c]|]; try discriminate;
    destruct (decide (p ∈ short_write (disk w))); try discriminate;
    intros Heq; injection Heq as <-; apply Hgoal.
Qed.

(** A write that fails after the file was opened answers [False] and
    leaves a file that [load_rois] rejects: the list saved there before is
    lost on disk, while the list in memory is kept. *)
Theorem save_rois_failed_write_truncates (filename : option string) (w : world)
    (saved : list roi) :
  let p := resolve filename (det w) in
  nodes (disk w) !! p = Some (File (Doc saved)) ->
  parents_clear p (disk w) ->
  p ∉ read_only (disk w) ->
  p ∈ short_write (disk w) ->
  exists w',
    save_rois filename w = (Returns false, w') /\
    det w' = det w /\
    nodes (disk w') !! p = Some (File Garbage) /\
    load_rois filename w' = (Returns false, w').
Proof.
  intros p Hnode Hclear Hro Hsw. rewrite save_rois_unfold. cbv zeta.
  fold p. rewrite Hnode, (dirs_made_clear _ _ Hclear).
  destruct (decide (p ∈ read_only (disk w))); [contradiction|].
  destruct (decide (p ∈ short_write (disk w))); [|contradiction].
  set (d1 := (dirs_made (parent_dirs p) (disk w)).1).
  exists {| det := det w; disk := set_node p (File Garbage) d1 |}.
  split; [reflexivity|]. split; [reflexivity|].
  assert (Hgarbage : nodes (set_node p (File Garbage) d1) !! p
                     = Some (File Garbage)) by apply lookup_insert_eq.
  split; [exact Hgarbage|].
  rewrite load_rois_unfold. cbn [det disk]. fold p. rewrite Hgarbage.
  reflexivity.
Qed.

(** [load_rois] never writes to the disk and replaces nothing but the ROI
    attribute: history, rain flag, background model and configuration stay,
    so the windows of earlier ROIs are inherited by loaded ROIs with the
    same ids.  When it answers [False] the state is unchanged, except on a
    file whose JSON value has no length (null, a boolean, a number): there
    the attribute is already replaced by that value when the log line
    raises. *)
Theorem load_rois_changes_only_rois (filename : option string) (w : world) :
  let out := load_rois filename w in
  disk out.2 = disk w /\
  motion_history (det out.2) = motion_history (det w) /\
  rain_detection_active (det out.2) = rain_detection_active (det w) /\
  background_subtractor (det out.2) = background_subtractor (det w) /\
  config (det out.2) = config (det w) /\
  (out.1 = Returns true \/
   out = (Returns false, w) \/
   exists v,
     nodes (disk w) !! resolve filename (det w) = Some (File (Value v)) /\
     py_len v = None /\
     out.1 = Returns false /\
     other_rois out.2 = Some v /\
     rois (det out.2) = []).
Proof.
  cbv zeta. rewrite load_rois_unfold.
  destruct (nodes (disk w) !! resolve filename (det w)) as [[| |[|l|v]]|];
    simpl; repeat split; auto.
  destruct (py_len v) as [n|] eqn:Hlen; simpl; [left; reflexivity|].
  right. right. exists v. repeat split. exact Hlen.
Qed.

(** Called on a detector whose ROI attribute is a list, [add_roi],
    [delete_roi], [clear_rois] and [save_rois] leave it a list; so does
    [load_rois] unless the file holds a JSON value that is not an array. *)
Lemma edits_keep_list (w : world) (x1 y1 x2 y2 i : Z)
    (filename : option string) :
  other_rois (add_roi x1 y1 x2 y2 w).2 = None /\
  other_rois (delete_roi i w).2 = None /\
  other_rois (clear_rois w).2 = None /\
  other_rois (save_rois filename w).2 = None /\
  (other_rois (load_rois filename w).2 = None \/
   exists v, nodes (disk w) !! resolve filename (det w) = Some (File (Value v))).
Proof.
  split; [|split; [|split; [|split]]].
  - rewrite add_roi_unfold. destruct (roi_count w >=? capacity w); reflexivity.
  - rewrite delete_roi_unfold. destruct (remove_first i (rois (det w))); reflexivity.
  - reflexivity.
  - rewrite save_rois_unfold. cbv zeta.
    destruct (decide (_ ∈ read_only (disk w))); [reflexivity|].
    destruct (dirs_made _ (disk w)) as [d1 [e|]]; simpl; [reflexivity|].
    destruct (nodes (disk w) !! resolve filename (det w)) as [[| |c]|];
      try reflexivity;
      destruct (decide (_ ∈ short_write (disk w))); reflexivity.
  - rewrite load_rois_unfold.
    destruct (nodes (disk w) !! resolve filename (det w)) as [[| |[|l|v]]|];
      try (left; reflexivity).
    right. exists v. reflexivity.
Qed.

(** After a successful [save_rois], [load_rois] from the same path on the
    same detector succeeds and changes nothing. *)
Theorem save_then_load_same_store (filename : option string) (w w1 : world) :
  save_rois filename w = (Returns true, w1) ->
  load_rois filename w1 = (Returns true, w1).
Proof.
  intros Hsave. destruct (save_rois_success _ _ _ Hsave) as [Hdet Hnode].
  rewrite load_rois_unfold, Hdet, Hnode.
  destruct w1 as [self1 d1]. simpl in *. subst self1.
  destruct (det w). reflexivity.
Qed.

(** ** Construction *)

(** A new detector holds the ROI records of its configuration file when
    that file is a readable array and no ROI otherwise (missing file,
    directory, unreadable or malformed file); its history is empty, its
    rain flag is down, and the disk is as it was.  When the file holds a
    JSON value that is not an array, the ROI attribute is that value. *)
Theorem init_state (cfg : option DetectorConfig) (model : subtractor)
    (d : filesystem) :
  let w := MotionDetector_init cfg model d in
  rois (det w) =
    match nodes d !! roi_config_file (default default_config cfg) with
    | Some (File (Doc l)) => l
    | _ => []
    end /\
  motion_history (det w) = ∅ /\
  rain_detection_active (det w) = false /\
  config (det w) = default default_config cfg /\
  disk w = d /\
  other_rois w =
    match nodes d !! roi_config_file (default default_config cfg) with
    | Some (File (Value v)) => Some v
    | _ => None
    end.
Proof.
  cbv zeta. unfold MotionDetector_init. rewrite load_rois_unfold. simpl.
  destruct (nodes d !! roi_config_file (default default_config cfg))
    as [[| |[|l|v]]|]; simpl; repeat split.
Qed.


End PersistenceFacts.

Section WebFacts.
Context {V : Vision}.

#[local] Existing Instance py_ret.
#[local] Existing Instance py_bind.

(** ** The ROI routes and the statistics of web/app.py *)

Lemma bind_py_unfold {A B} (m : py A) (k : A -> py B) (w : world) :
  (m ≫= k) w = match m w with
               | (Returns a, w') => k a w'
               | (Raises e, w') => (Raises e, w')
               end.
Proof. reflexivity. Qed.

Lemma clear_rois_unfold (w : world) :
  clear_rois w =
  (Returns tt,
   {| det := set_motion_history ∅ (set_rois [] (det w)); disk := disk w |}).
Proof. reflexivity. Qed.

(** With a detector in place and nothing preventing the write, each ROI
    route leaves the configuration file equal to the ROI list in memory
    whenever it answers success, and changes nothing when it does not. *)
Theorem api_edits_are_saved (self : MotionDetector) (d : filesystem)
    (x1 y1 x2 y2 i : Z) :
  writable (roi_config_file (config self)) d ->
  in_sync self d (api_add_roi x1 y1 x2 y2 (Some self) d) /\
  in_sync self d (api_delete_roi i (Some self) d) /\
  in_sync self d (api_clear_rois (Some self) d).
Proof.
  intros Hw. unfold in_sync. split; [|split].
  - unfold api_add_roi, on_detector. rewrite bind_py_unfold, add_roi_unfold.
    destruct (roi_count _ >=? capacity _).
    + exists self. simpl. auto.
    + rewrite bind_py_unfold, save_rois_writable by exact Hw.
      eexists. simpl. repeat split. apply lookup_insert_eq.
  - unfold api_delete_roi, on_detector. rewrite bind_py_unfold, delete_roi_unfold.
    cbn [det disk]. destruct (remove_first i (rois self)) as [l|].
    + rewrite bind_py_unfold, save_rois_writable by exact Hw.
      eexists. simpl. repeat split. apply lookup_insert_eq.
    + exists self. simpl. auto.
  - unfold api_clear_rois, on_detector.
    rewrite bind_py_unfold, clear_rois_unfold.
    rewrite bind_py_unfold, save_rois_writable by exact Hw.
    eexists. simpl. repeat split. apply lookup_insert_eq.
Qed.


Lemma flagged_ids_nil (l : list roi) :
  existsb motion_detected l =
  match map roi_id (filter (fun r => Is_true (motion_detected r)) l) with
  | [] => false
  | _ => true
  end.
Proof.
  induction l as [|r rest IH]; [reflexivity|].
  rewrite filter_cons. simpl. destruct (motion_detected r); simpl.
  - destruct (decide (Is_true true)) as [_|Hno]; [reflexivity|].
    exfalso. apply Hno. exact I.
  - destruct (decide (Is_true false)) as [Hyes|_]; [destruct Hyes|]. exact IH.
Qed.

(** One pass of the camera loop over a frame: [total_detections] grows by
    one exactly when the list of flagged ROI ids it publishes is not empty;
    [active_rois] is the number of configured ROIs, flagged or not; and
    [rain_detected] is the detector's rain flag from before the frame. *)
Theorem update_stats_counts (fr : frame) (clock : nat -> timestamp)
    (now : string) (st : Stats) (self : MotionDetector) :
  let out := update_stats fr clock now st (Some self) in
  total_detections out.1 =
    total_detections st +
    match motion_detected_rois out.1 with [] => 0 | _ => 1 end /\
  stats_active_rois out.1 = Z.of_nat (length (rois self)) /\
  rain_detected out.1 = rain_detection_active self /\
  out.2 = Some (process_frame fr clock self).2.
Proof.
  cbv zeta. unfold update_stats.
  pose proof (process_frame_result_motion fr clock self) as Hany.
  pose proof (process_frame_snapshot fr clock self) as [Hrain _].
  pose proof (process_frame_same_length fr clock self) as Hlen.
  destruct (process_frame fr clock self) as [results self'].
  cbn [fst snd] in *. cbn [total_detections motion_detected_rois
    stats_active_rois rain_detected].
  rewrite Hany, flagged_ids_nil, Hlen.
  split; [|repeat split; exact Hrain].
  destruct (map roi_id _); lia.
Qed.

End WebFacts.

(** ** Concrete runs for the further properties *)

Ltac concrete_ids H :=
  repeat (apply elem_of_cons in H as [H|H]; [discriminate H|]);
  apply elem_of_nil in H; exact H.

Lemma delete_roi_absent_witness :
  delete_roi 7 Reference.after_two_adds
  = (Returns false, Reference.after_two_adds).
Proof.
  apply (delete_roi_absent 7 Reference.after_two_adds).
  assert (Hids : map roi_id (rois (det Reference.after_two_adds)) = [1; 2])
    by (vm_compute; reflexivity).
  rewrite Hids. intros Hin. concrete_ids Hin.
Defined.

Lemma delete_roi_present_witness :
  exists l1 r l2 w',
    delete_roi 1 Reference.after_two_adds = (Returns true, w') /\
    rois (det Reference.after_two_adds) = l1 ++ r :: l2 /\
    roi_id r = 1 /\ (1 ∉ map roi_id l1) /\
    rois (det w') = l1 ++ l2 /\
    motion_history (det w') !! 1 = None /\
    (forall k, k <> 1 ->
       motion_history (det w') !! k
       = motion_history (det Reference.after_two_adds) !! k) /\
    disk w' = disk Reference.after_two_adds /\
    config (det w') = config (det Reference.after_two_adds).
Proof.
  apply (delete_roi_present 1 Reference.after_two_adds).
  assert (Hids : map roi_id (rois (det Reference.after_two_adds)) = [1; 2])
    by (vm_compute; reflexivity).
  rewrite Hids. apply elem_of_cons. left. reflexivity.
Defined.

Lemma add_then_delete_witness :
  exists w2,
    delete_roi 3 (Reference.after (add_roi 5 5 45 45) Reference.after_two_adds)
      = (Returns true, w2) /\
    rois (det w2) = rois (det Reference.after_two_adds) /\
    motion_history (det w2)
      = delete 3 (motion_history (det Reference.after_two_adds)) /\
    disk w2 = disk Reference.after_two_adds.
Proof.
  apply (add_then_delete Reference.after_two_adds
           (Reference.after (add_roi 5 5 45 45) Reference.after_two_adds)
           5 5 45 45).
  vm_compute. reflexivity.
Defined.

Lemma calls_keep_ids_sorted_witness :
  roi_count (run_calls Scenarios.session Reference.world0) <= 4 /\
  ids_increasing 0 (rois (det (run_calls Scenarios.session Reference.world0))) /\
  NoDup (map roi_id (rois (det (run_calls Scenarios.session Reference.world0)))).
Proof.
  apply (calls_keep_ids_sorted Scenarios.session Reference.world0).
  - vm_compute. discriminate.
  - exact I.
Defined.

Lemma calls_keep_history_tidy_witness :
  2 ∈ map roi_id
        (rois (det (run_calls Scenarios.short_session Reference.world0))) /\
  Z.of_nat (length [false]) <= 3.
Proof.
  apply (calls_keep_history_tidy Scenarios.short_session Reference.world0).
  - vm_compute. discriminate.
  - intros k h Hk. change (motion_history (det Reference.world0)) with
      (∅ : gmap Z (list bool)) in Hk.
    rewrite lookup_empty in Hk. discriminate Hk.
  - vm_compute. reflexivity.
Defined.

Lemma last_motion_time_rule_witness :
  exists r',
    rois (process_frame (V := Reference.vision) Reference.moving
            (fun i => inject_Z (Z.of_nat i) + 7)%Q
            (Reference.feed [Reference.moving; Reference.moving]
               Reference.one_roi)).2 !! 0%nat = Some r' /\
    last_motion_time r' =
    if motion_detected r' then Some (inject_Z (Z.of_nat 0) + 7)%Q else None.
Proof.
  apply (last_motion_time_rule (V := Reference.vision) Reference.moving
           (fun i => inject_Z (Z.of_nat i) + 7)%Q
           (Reference.feed [Reference.moving; Reference.moving] Reference.one_roi)
           0%nat (Reference.roi_at 0 0 40 40)).
  vm_compute. reflexivity.
Defined.

Lemma short_window_not_flagged_witness :
  exists r',
    rois (process_frame (V := Reference.vision) Reference.moving
            Reference.clock0 Reference.one_roi).2 !! 0%nat = Some r' /\
    roi_id r' = 1 /\ motion_detected r' = false.
Proof.
  apply (short_window_not_flagged (V := Reference.vision) Reference.moving
           Reference.clock0 Reference.one_roi 0%nat (Reference.roi_at 0 0 40 40)).
  - assert (Hids : map roi_id (rois Reference.one_roi) = [1])
      by (vm_compute; reflexivity).
    rewrite Hids. apply NoDup_singleton.
  - vm_compute. reflexivity.
  - vm_compute. reflexivity.
Defined.

Lemma raw_motion_iff_large_contour_witness :
  raw_motion (V := Reference.vision) default_config Reference.moving
    (Reference.roi_at 0 0 40 40) = true <->
  large_contours (V := Reference.vision) default_config
    (roi_mask_of Reference.moving (Reference.roi_at 0 0 40 40)) <> [].
Proof.
  apply (raw_motion_iff_large_contour (V := Reference.vision) default_config
           Reference.moving (Reference.roi_at 0 0 40 40)).
  - vm_compute. discriminate.
  - vm_compute. reflexivity.
Defined.

Lemma save_rois_failed_write_truncates_witness :
  let w := Scenarios.two_rois_on Scenarios.failing_disk in
  exists w',
    save_rois None w = (Returns false, w') /\
    det w' = det w /\
    nodes (disk w') !! Scenarios.config_path = Some (File Garbage) /\
    load_rois None w' = (Returns false, w').
Proof.
  apply (save_rois_failed_write_truncates None
           (Scenarios.two_rois_on Scenarios.failing_disk) Reference.five_records).
  - apply lookup_singleton_eq.
  - assert (Hdirs : parent_dirs
                      (resolve None
                         (det (Scenarios.two_rois_on Scenarios.failing_disk)))
                    = ["config"%string]) by (vm_compute; reflexivity).
    unfold parents_clear. rewrite Hdirs.
    constructor; [left; vm_compute; reflexivity | constructor].
  - apply not_elem_of_empty.
  - change (Scenarios.config_path ∈ ({[ Scenarios.config_path ]} : gset string)).
    apply elem_of_singleton_2. reflexivity.
Defined.

Lemma save_then_load_same_store_witness :
  load_rois None (Reference.after (save_rois None) Reference.after_two_adds)
  = (Returns true, Reference.after (save_rois None) Reference.after_two_adds).
Proof.
  apply (save_then_load_same_store None Reference.after_two_adds).
  vm_compute. reflexivity.
Defined.

Lemma writable_empty_disk (p : string) : writable p Reference.empty_disk.
Proof.
  unfold writable, parents_clear, Reference.empty_disk. simpl.
  rewrite lookup_empty.
  repeat split; try discriminate; try apply not_elem_of_empty.
  apply Forall_forall. intros q _. left. apply lookup_empty.
Qed.


Lemma api_edits_are_saved_witness :
  in_sync (det Reference.after_two_adds) Reference.empty_disk
    (api_add_roi 5 5 45 45 (Some (det Reference.after_two_adds))
       Reference.empty_disk) /\
  in_sync (det Reference.after_two_adds) Reference.empty_disk
    (api_delete_roi 2 (Some (det Reference.after_two_adds))
       Reference.empty_disk) /\
  in_sync (det Reference.after_two_adds) Reference.empty_disk
    (api_clear_rois (Some (det Reference.after_two_adds))
       Reference.empty_disk).
Proof.
  apply (api_edits_are_saved (det Reference.after_two_adds)
           Reference.empty_disk 5 5 45 45 2).
  apply writable_empty_disk.
Defined.


Lemma window_is_last_n_witness :
  fold_left (update_history 3) [true; false; true; true] [false]
  = [false; true; true].
Proof.
  apply (window_is_last_n 3 [true; false; true; true] [false]).
  - vm_compute. discriminate.
  - vm_compute. discriminate.
Defined.

Lemma process_frame_other_windows_witness :
  motion_history (process_frame (V := Reference.vision) Reference.moving
                    Reference.clock0 Reference.one_roi).2 !! 9
  = motion_history Reference.one_roi !! 9.
Proof.
  apply (process_frame_other_windows (V := Reference.vision) Reference.moving
           Reference.clock0 Reference.one_roi 9).
  assert (Hids : map roi_id (rois Reference.one_roi) = [1])
    by (vm_compute; reflexivity).
  rewrite Hids. intros Hin. concrete_ids Hin.
Defined.

Lemma save_rois_creates_parents_witness :
  det (Reference.after (save_rois None) Reference.after_two_adds)
  = det Reference.after_two_adds /\
  nodes (disk (Reference.after (save_rois None) Reference.after_two_adds))
    !! resolve None (det Reference.after_two_adds)
  = Some (File (Doc (rois (det Reference.after_two_adds)))) /\
  Forall (fun q =>
            nodes (disk (Reference.after (save_rois None)
                           Reference.after_two_adds)) !! q
            = Some Directory)
    (parent_dirs (resolve None (det Reference.after_two_adds))).
Proof.
  apply (save_rois_creates_parents None Reference.after_two_adds
           (Reference.after (save_rois None) Reference.after_two_adds)).
  vm_compute. reflexivity.
Defined.

(** [save_rois] creates the directory of the configuration file; a later
    save to the path of that directory is refused. *)
Lemma save_makes_parent_directory :
  nodes (disk (Reference.after (save_rois None) Reference.after_two_adds))
    !! "config"%string = Some Directory /\
  save_rois (Some "config"%string)
    (Reference.after (save_rois None) Reference.after_two_adds)
  = (Returns false,
     Reference.after (save_rois None) Reference.after_two_adds).
Proof. vm_compute. split; reflexivity. Qed.

(** A configuration file holding [null]: [load_rois] answers [False] with
    the ROI attribute already replaced; [add_roi] and [delete_roi] then
    answer [False], and [clear_rois] raises. *)
Lemma load_null_replaces_rois :
  let w := Scenarios.two_rois_on
             (set_node Scenarios.config_path (File (Value NNull))
                Reference.empty_disk) in
  let s := (load_rois None w).2 in
  (load_rois None w).1 = Returns false /\
  other_rois s = Some NNull /\
  rois (det s) = [] /\
  add_roi 0 0 40 40 s = (Returns false, s) /\
  delete_roi 1 s = (Returns false, s) /\
  clear_rois s = (Raises AttributeError, s).
Proof. vm_compute. repeat split. Qed.
